(** * AgentsFramework: schema generation and the agent loop

    A shallow embedding of [schemas.py] and [agent.py] and the properties
    of the schema mapper, the response-schema builder, recipient
    registration and the bounded reasoning loop.

    Python objects that travel through JSON are modelled by [value];
    insertion-ordered dictionaries by association lists; exceptions by
    an error result; the mutable transcripts of all agents by one store
    indexed by object identity. *)

From Stdlib Require Import ZArith String Ascii List Bool Lia DecimalString.
From Stdlib Require Import PrimFloat FloatOps SpecFloat.
From stdpp Require Import base option list strings gmap.

#[local] Set Warnings "-register-all".

Local Open Scope Z_scope.
Local Open Scope list_scope.

(** ** Python values *)

Module py.

(** The values [json.loads] can produce and [json.dumps] accepts. *)
Inductive value : Type :=
| VNone
| VBool (b : bool)
| VInt (z : Z)
| VFloat (f : float)
| VStr (s : string)
| VList (l : list value)
| VDict (d : list (string * value)).

(** A [dict] with string keys, in insertion order.  A well-formed
    dictionary has pairwise distinct keys; the operations below keep
    that invariant and read the first binding of a key. *)
Definition dict (A : Type) : Type := list (string * A).

Fixpoint dict_get {A} (k : string) (d : dict A) : option A :=
  match d with
  | [] => None
  | (k', v) :: d' => if String.eqb k k' then Some v else dict_get k d'
  end.

(** [d[k] = v]: an existing key keeps its position, a new key goes last. *)
Fixpoint dict_set {A} (k : string) (v : A) (d : dict A) : dict A :=
  match d with
  | [] => [(k, v)]
  | (k', v') :: d' =>
      if String.eqb k k' then (k, v) :: d' else (k', v') :: dict_set k v d'
  end.

Definition keys {A} (d : dict A) : list string := map fst d.

(** Truth value testing ([if x:]). *)
Definition truthy (v : value) : bool :=
  match v with
  | VNone => false
  | VBool b => b
  | VInt z => negb (z =? 0)
  | VFloat f => negb (PrimFloat.eqb f 0%float)
  | VStr s => negb (String.eqb s "")
  | VList l => match l with [] => false | _ => true end
  | VDict d => match d with [] => false | _ => true end
  end.

(** Exceptions, by class. *)
Inductive exn : Type :=
| AttributeError
| KeyError
| TypeError
| ValueError
| JSONDecodeError
| Exception (msg : string).

Inductive res (A : Type) : Type :=
| Ok (a : A)
| Raise (e : exn).
Arguments Ok {A} a.
Arguments Raise {A} e.

Definition res_bind {A B} (r : res A) (k : A -> res B) : res B :=
  match r with
  | Ok a => k a
  | Raise e => Raise e
  end.

(** [[f(x) for x in l]], stopping at the first exception. *)
Fixpoint res_map {A B} (f : A -> res B) (l : list A) : res (list B) :=
  match l with
  | [] => Ok []
  | x :: l' =>
      res_bind (f x) (fun y => res_bind (res_map f l') (fun ys => Ok (y :: ys)))
  end.

(** [v.get(k)] and [v.get(k, dflt)]: only dictionaries have a [get]. *)
Definition get_default (v : value) (k : string) (dflt : value) : res value :=
  match v with
  | VDict d => Ok (default dflt (dict_get k d))
  | _ => Raise AttributeError
  end.

Definition get (v : value) (k : string) : res value := get_default v k VNone.

(** [v[k]] with a string subscript. *)
Definition getitem (v : value) (k : string) : res value :=
  match v with
  | VDict d =>
      match dict_get k d with
      | Some x => Ok x
      | None => Raise KeyError
      end
  | _ => Raise TypeError
  end.

(** *** Text

    A [str] is modelled by its UTF-8 encoding, one [ascii] per byte; a
    text is ASCII when every byte is below 128. *)
Definition is_ascii (s : string) : bool :=
  forallb (fun c => (nat_of_ascii c <? 128)%nat) (list_ascii_of_string s).

Definition lower_ascii (c : ascii) : ascii :=
  let n := nat_of_ascii c in
  if ((65 <=? n) && (n <=? 90))%nat then ascii_of_nat (n + 32) else c.

Definition upper_ascii (c : ascii) : ascii :=
  let n := nat_of_ascii c in
  if ((97 <=? n) && (n <=? 122))%nat then ascii_of_nat (n - 32) else c.

(** [s.lower()] and [s.capitalize()] on ASCII text, where only the
    letters A-Z and a-z have a case. *)
Fixpoint ascii_lower (s : string) : string :=
  match s with
  | EmptyString => EmptyString
  | String c s' => String (lower_ascii c) (ascii_lower s')
  end.

Definition ascii_capitalize (s : string) : string :=
  match s with
  | EmptyString => EmptyString
  | String c s' => String (upper_ascii c) (ascii_lower s')
  end.

(** The white space [str.strip] removes: the ASCII separators, and the
    encodings of U+0085, U+00A0 (two bytes) and of U+1680,
    U+2000-U+200A, U+2028, U+2029, U+202F, U+205F and U+3000 (three
    bytes). *)
Definition is_space (c : ascii) : bool :=
  let n := nat_of_ascii c in
  (((9 <=? n) && (n <=? 13)) || ((28 <=? n) && (n <=? 32)))%nat.

Definition is_space2 (a b : ascii) : bool :=
  let a := nat_of_ascii a in
  let b := nat_of_ascii b in
  ((a =? 194) && ((b =? 133) || (b =? 160)))%nat.

Definition is_space3 (a b c : ascii) : bool :=
  let a := nat_of_ascii a in
  let b := nat_of_ascii b in
  let c := nat_of_ascii c in
  (((a =? 225) && (b =? 154) && (c =? 128))
   || ((a =? 226) && (b =? 128)
       && (((128 <=? c) && (c <=? 138)) || (c =? 168) || (c =? 169)
           || (c =? 175)))
   || ((a =? 226) && (b =? 129) && (c =? 159))
   || ((a =? 227) && (b =? 128) && (c =? 128)))%nat.

(** The bytes left when the leading white space is dropped; with
    [forward = false] the bytes are read from the end of the text, so
    that the bytes of a character come last byte first. *)
Fixpoint drop_spaces (forward : bool) (l : list ascii) : list ascii :=
  match l with
  | [] => []
  | a :: l1 =>
      if is_space a then drop_spaces forward l1
      else
        match l1 with
        | [] => l
        | b :: l2 =>
            if (if forward then is_space2 a b else is_space2 b a)
            then drop_spaces forward l2
            else
              match l2 with
              | [] => l
              | c :: l3 =>
                  if (if forward then is_space3 a b c else is_space3 c b a)
                  then drop_spaces forward l3
                  else l
              end
        end
  end.

Definition lstrip (s : string) : string :=
  string_of_list_ascii (drop_spaces true (list_ascii_of_string s)).

Definition rstrip (s : string) : string :=
  string_of_list_ascii
    (rev (drop_spaces false (rev (list_ascii_of_string s)))).

(** [s.strip()] *)
Definition strip (s : string) : string := rstrip (lstrip s).

(** The characters of a text: a byte that continues a character stays
    with the bytes before it. *)
Definition is_continuation (c : ascii) : bool :=
  let n := nat_of_ascii c in ((128 <=? n) && (n <? 192))%nat.

Fixpoint characters (s : string) : list string :=
  match s with
  | EmptyString => []
  | String c s' =>
      let rest := characters s' in
      match s', rest with
      | String c' _, x :: l =>
          if is_continuation c' then String c x :: l
          else String c EmptyString :: rest
      | _, _ => String c EmptyString :: rest
      end
  end.

(** *** The store and effectful code

    Every agent owns a transcript, a Python list that is appended to in
    place.  The store maps the identity of each such list to its
    contents.  [clock] counts the completion requests issued so far. *)
Record world : Type := { clock : nat; heap : gmap nat (list value) }.

(** A computation may change the store and may raise; what it wrote
    before raising stays written. *)
Definition M (A : Type) : Type := world -> res A * world.

#[export] Instance res_ret : MRet res := fun A a => Ok a.
#[export] Instance res_mbind : MBind res := fun A B k r => res_bind r k.

#[export] Instance M_ret : MRet M := fun A a w => (Ok a, w).
#[export] Instance M_bind : MBind M := fun A B k m w =>
  match m w with
  | (Ok a, w') => k a w'
  | (Raise e, w') => (Raise e, w')
  end.

Definition lift {A} (r : res A) : M A := fun w => (r, w).

Definition read (ref : nat) : M (list value) :=
  fun w => (Ok (default [] (heap w !! ref)), w).

Definition write (ref : nat) (l : list value) : M unit :=
  fun w => (Ok tt, {| clock := clock w; heap := <[ref := l]> (heap w) |}).

(** [l.append(x)] on the list object [ref]. *)
Definition append (ref : nat) (x : value) : M unit :=
  l ← read ref; write ref (l ++ [x]).

(** *** Annotations and function objects *)

(** The classes that occur as plain annotations. *)
Inductive pyclass : Type :=
| c_str
| c_int
| c_float
| c_bool
| c_dict
| c_list
| c_other (qualname : string).

(** Annotation objects, by what [get_schema_for_type] can tell apart:
    - [ANone]: the object [None];
    - [AClass c]: a class that is neither an [Enum] nor a [TypedDict];
    - [AEnum members]: an [Enum] subclass, members (name, value) in
      definition order;
    - [ATypedDict fields]: a [dict] subclass with [__annotations__];
    - [AUnion args]: [Union[...]] (origin [Union]);
    - [AList args]: origin [list], so [List] ([args = []]) or [List[T]];
    - [ADict args]: origin [dict], so [Dict] ([args = []]) or [Dict[K, V]];
    - [AOther hashable]: any other object, with or without an origin: a
      string, a list, [Tuple[int]], [Annotated[int, []]], ...;
      [hashable] tells whether [hash] accepts it.
    The classes of [AClass] are hashed by identity, as classes are
    unless a metaclass says otherwise. *)
Inductive annotation : Type :=
| ANone
| AClass (c : pyclass)
| AEnum (members : list (string * value))
| ATypedDict (fields : list (string * annotation))
| AUnion (args : list annotation)
| AList (args : list annotation)
| ADict (args : list annotation)
| AOther (hashable : bool).

(** The kinds of [inspect.Parameter]: [a, /], [a], [*a], [*, a] and
    [**a]. *)
Inductive parameter_kind : Type :=
| POSITIONAL_ONLY
| POSITIONAL_OR_KEYWORD
| VAR_POSITIONAL
| KEYWORD_ONLY
| VAR_KEYWORD.

(** One entry of [inspect.signature(f).parameters]; [None] stands for
    [inspect.Parameter.empty]. *)
Record parameter : Type := {
  param_name : string;
  param_kind : parameter_kind;
  param_annotation : option annotation;
  param_default : option value
}.

(** A function object as [def] makes it: its signature, its [__doc__]
    and what it does on the bound arguments (given in the order of the
    signature; a [*args] parameter is bound to the empty sequence, a
    [**kwargs] parameter to the record of the keywords no parameter
    takes).  What it returns is a value [json.dumps] accepts. *)
Record pyfunc : Type := {
  signature : list parameter;
  doc : option string;
  body : dict value -> M value
}.

(** Whether keyword [k] is taken by a parameter of the signature. *)
Definition takes_keyword (sig : list parameter) (k : string) : bool :=
  existsb
    (fun p =>
       match param_kind p with
       | POSITIONAL_OR_KEYWORD | KEYWORD_ONLY => String.eqb k (param_name p)
       | _ => false
       end) sig.

Definition has_var_keyword (sig : list parameter) : bool :=
  existsb
    (fun p => match param_kind p with VAR_KEYWORD => true | _ => false end) sig.

(** Binding of a call that passes keywords only, as the unpacking of
    a record does.  A
    keyword that no parameter takes goes to the [**] parameter and is a
    [TypeError] without one; a positional-only parameter cannot be
    given, so it needs a default, as does every other parameter that
    is not given. *)
Definition bind_arguments (sig : list parameter) (kwargs : dict value)
  : res (dict value) :=
  let extra :=
    List.filter (fun '(k, _) => negb (takes_keyword sig k)) kwargs in
  if match extra with [] => true | _ => has_var_keyword sig end
  then
    res_map
      (fun p =>
         match param_kind p with
         | VAR_POSITIONAL => Ok (param_name p, VList [])
         | VAR_KEYWORD => Ok (param_name p, VDict extra)
         | POSITIONAL_ONLY =>
             match param_default p with
             | Some v => Ok (param_name p, v)
             | None => Raise TypeError
             end
         | POSITIONAL_OR_KEYWORD | KEYWORD_ONLY =>
             match dict_get (param_name p) kwargs, param_default p with
             | Some v, _ => Ok (param_name p, v)
             | None, Some v => Ok (param_name p, v)
             | None, None => Raise TypeError
             end
         end) sig
  else Raise TypeError.

Definition apply (f : pyfunc) (kwargs : dict value) : M value :=
  args ← lift (bind_arguments (signature f) kwargs); body f args.

(** [for x in v]: a list yields its elements, a dict its keys, a string
    its characters; nothing else that JSON produces is iterable. *)
Definition iter (v : value) : res (list value) :=
  match v with
  | VList l => Ok l
  | VDict d => Ok (map VStr (keys d))
  | VStr s => Ok (map VStr (characters s))
  | _ => Raise TypeError
  end.

(** Library and service calls the repository relies on:
    - [json_dumps indent v] is [json.dumps(v, indent=indent)];
    - [json_loads s] is [json.loads(s)];
    - [float_repr f] is [str(f)] for a float;
    - [create t model messages response_format] is the [content] of the
      first choice returned by the [t]-th call of
      [openai.chat.completions.create];
    - [today] is [datetime.now().strftime("%Y-%m-%d")];
    - [unicode_lower s] and [unicode_capitalize s] are [s.lower()] and
      [s.capitalize()] for a text that is not ASCII, where the case
      mapping is that of the Unicode tables of the interpreter;
    - [special_enum class_name names] is what [Enum(class_name, names)]
      makes of a mapping in which some name is empty, is [mro] or
      begins with an underscore, or in which a value is repeated: the
      members it iterates over, as (name, value) in definition order,
      or the exception it raises.  The enum module treats private,
      sunder and dunder names case by case. *)
Class Runtime : Type := {
  json_dumps : option nat -> value -> string;
  json_loads : string -> res value;
  float_repr : float -> string;
  create : nat -> string -> list value -> value -> res string;
  today : string;
  unicode_lower : string -> string;
  unicode_capitalize : string -> string;
  special_enum : string -> dict string -> res (list (string * value))
}.

(** [s.lower()] and [s.capitalize()] *)
Definition lower `{RT : Runtime} (s : string) : string :=
  if is_ascii s then ascii_lower s else unicode_lower s.

Definition capitalize `{RT : Runtime} (s : string) : string :=
  if is_ascii s then ascii_capitalize s else unicode_capitalize s.

(** A name that [Enum] takes as the name of a member without further
    ado. *)
Definition is_member_name (s : string) : bool :=
  negb (String.eqb s "") && negb (String.eqb s "mro")
  && negb (String.prefix "_" s).

Fixpoint distinct (l : list string) : bool :=
  match l with
  | [] => true
  | x :: l' => negb (existsb (String.eqb x) l') && distinct l'
  end.

(** [Enum(class_name, names)] for a mapping from names to strings: the
    class whose members are the entries of the mapping, in their
    order, when the names are member names and no value is repeated (a
    repeated value would make an alias). *)
Definition Enum `{RT : Runtime} (class_name : string) (names : dict string)
  : res annotation :=
  if forallb is_member_name (keys names) && distinct (map snd names)
  then Ok (AEnum (map (fun '(k, v) => (k, VStr v)) names))
  else res_bind (special_enum class_name names) (fun members => Ok (AEnum members)).

End py.
Export py.

(** ** schemas.py *)

Module schemas.

(** The membership test hashes the annotation, which raises
    [TypeError] for an object that cannot be hashed. *)
Definition get_python_type (annotation : annotation) : res string :=
  match annotation with
  | AClass c_str => Ok "string"
  | AClass c_int => Ok "integer"
  | AClass c_float => Ok "number"
  | AClass c_bool => Ok "boolean"
  | AClass c_dict => Ok "object"
  | AClass c_list => Ok "array"
  | AOther false => Raise TypeError
  | _ => Raise ValueError
  end.

Definition string_schema : dict value := [("type", VStr "string")].

Definition array_schema (items : dict value) : dict value :=
  [("type", VStr "array"); ("items", VDict items)].

Definition mapping_schema (key_schema value_schema : dict value) : dict value :=
  [("type", VStr "object");
   ("properties", VDict [("property1", VDict key_schema);
                         ("property2", VDict value_schema)]);
   ("required", VList [VStr "property1"; VStr "property2"]);
   ("additionalProperties", VBool false)].

Definition object_schema (properties : dict value) (required : list string)
  : dict value :=
  [("type", VStr "object");
   ("properties", VDict properties);
   ("required", VList (map VStr required));
   ("additionalProperties", VBool false)].

(** The tests of the source are tried in this order: [Enum] subclass,
    [TypedDict], no origin (a plain class or [None], mapped through
    [get_python_type]), then origin [Union], [list], [dict], and any
    other origin. *)
Fixpoint get_schema_for_type (annotation : annotation) : res (dict value) :=
  match annotation with
  | AEnum members =>
      Ok [("type", VStr "string"); ("enum", VList (map snd members))]
  | ATypedDict fields =>
      res_bind
        ((fix items (fs : list (string * py.annotation))
              (properties : dict value) : res (dict value) :=
            match fs with
            | [] => Ok properties
            | (key, val) :: fs' =>
                res_bind (get_schema_for_type val)
                  (fun s => items fs' (dict_set key (VDict s) properties))
            end) fields [])
        (fun properties => Ok (object_schema properties (keys fields)))
  | ANone | AClass _ =>
      res_bind (get_python_type annotation) (fun t => Ok [("type", VStr t)])
  | AUnion args =>
      res_bind
        ((fix each (l : list py.annotation) : res (list value) :=
            match l with
            | [] => Ok []
            | arg :: l' =>
                res_bind (get_schema_for_type arg)
                  (fun s => res_bind (each l') (fun ss => Ok (VDict s :: ss)))
            end) args)
        (fun branches => Ok [("anyOf", VList branches)])
  | AList args =>
      match args with
      | arg0 :: _ =>
          res_bind (get_schema_for_type arg0) (fun s => Ok (array_schema s))
      | [] => Ok (array_schema string_schema)
      end
  | ADict args =>
      match args with
      | [key_type; value_type] =>
          res_bind
            (match key_type with
             | ANone => Ok string_schema
             | _ => get_schema_for_type key_type
             end)
            (fun key_schema =>
               res_bind
                 (match value_type with
                  | ANone => Ok string_schema
                  | _ => get_schema_for_type value_type
                  end)
                 (fun value_schema =>
                    Ok (mapping_schema key_schema value_schema)))
      | _ => Ok (mapping_schema string_schema string_schema)
      end
  | AOther _ =>
      res_bind (get_python_type annotation) (fun t => Ok [("type", VStr t)])
  end.

Section with_runtime.
Context `{RT : Runtime}.

(** The body of the inner loop of [extract_function_schema]. *)
Definition parameter_schema (param : parameter) : res (dict value) :=
  let annotation := default (AClass c_str) (param_annotation param) in
  param_schema ← get_schema_for_type annotation;
  let param_schema :=
    dict_set "title" (VStr (capitalize (param_name param))) param_schema in
  let param_schema :=
    dict_set "description" (VStr ("Parameter for " +:+ param_name param))
      param_schema in
  Ok param_schema.

Fixpoint parameters_schema (params : list parameter)
    (parameters_schema0 : dict value) : res (dict value) :=
  match params with
  | [] => Ok parameters_schema0
  | param :: params' =>
      param_schema ← parameter_schema param;
      parameters_schema params'
        (dict_set (param_name param) (VDict param_schema) parameters_schema0)
  end.

Definition description (func : pyfunc) : string :=
  match doc func with
  | Some d => if String.eqb d "" then "No description available." else strip d
  | None => "No description available."
  end.

(** The record appended to [schema] for one registry entry. *)
Definition tool_definition (name : string) (func : pyfunc) : res value :=
  parameters_schema ← parameters_schema (signature func) [];
  Ok (VDict
        [("function",
          VDict [("name", VStr name);
                 ("description", VStr (description func));
                 ("parameters",
                  VDict (object_schema parameters_schema (keys parameters_schema)));
                 ("strict", VBool true)]);
         ("type", VStr "function")]).

(** The list [schema] at the end of the outer loop. *)
Definition tool_definitions (functions : dict pyfunc) : res (list value) :=
  res_map (fun '(name, func) => tool_definition name func) functions.

Definition extract_function_schema (functions : dict pyfunc) : res string :=
  schema ← tool_definitions functions;
  Ok (json_dumps (Some 4%nat) (VList schema)).

Definition null_schema : value := VDict [("type", VStr "null")].

(** The branch appended for one tool. *)
Definition branch (tool : value) : res value :=
  func_info ← getitem tool "function";
  name ← getitem func_info "name";
  description ← getitem func_info "description";
  parameters ← getitem func_info "parameters";
  Ok (VDict
        [("type", VStr "object");
         ("properties",
          VDict [("name", VDict [("enum", VList [name]);
                                 ("description", description)]);
                 ("arguments", parameters)]);
         ("required", VList [VStr "name"; VStr "arguments"]);
         ("additionalProperties", VBool false)]).

Definition build_action_input_schema (tool_definitions_schema : string)
  : res (list value) :=
  tool_definitions ← json_loads tool_definitions_schema;
  tools ← iter tool_definitions;
  branches ← res_map branch tools;
  Ok (branches ++ [null_schema]).

Definition generate_response_schema (tool_definitions_schema : string)
  : res value :=
  action_input ← build_action_input_schema tool_definitions_schema;
  Ok (VDict
        [("type", VStr "object");
         ("description",
          VStr "Schema for AI responses ensuring strict JSON formatting.");
         ("properties",
          VDict
            [("Thought",
              VDict [("type", VStr "string");
                     ("description", VStr "AI's reasoning before taking action.")]);
             ("Action",
              VDict [("type", VStr "string");
                     ("enum", VList [VStr "CALL_FUNCTION"; VStr "NONE"]);
                     ("description", VStr "Chosen action.")]);
             ("Action Input", VDict [("anyOf", VList action_input)]);
             ("Observation",
              VDict [("anyOf",
                      VList [VDict [("type", VStr "string")];
                             VDict [("type", VStr "null")];
                             VDict [("type", VStr "object");
                                    ("additionalProperties", VBool false)]]);
                     ("description", VStr "Result of the executed action.")]);
             ("Final Answer",
              VDict [("anyOf",
                      VList [VDict [("type", VStr "string")];
                             VDict [("type", VStr "null")]]);
                     ("description",
                      VStr "Final answer to the query. Should be null if an action is executed.")])]);
         ("additionalProperties", VBool false);
         ("required",
          VList [VStr "Thought"; VStr "Action"; VStr "Action Input";
                 VStr "Observation"; VStr "Final Answer"])]).

End with_runtime.

End schemas.

(** ** agent.py *)

Module agent.

Section with_runtime.
Context `{RT : Runtime}.

(** An [Agent] object.  [conversation] is the identity of the list that
    holds the transcript; its contents live in the store. *)
Inductive Agent : Type := mkAgent {
  name : string;
  functions : dict pyfunc;
  recipients : list (Agent * string);
  tool_schema : string;
  system_prompt : string;
  conversation : nat;
  response_schema : value
}.

Definition message (role : string) (content : value) : value :=
  VDict [("role", VStr role); ("content", content)].

Definition function_message (function_name : value) (content : string) : value :=
  VDict [("role", VStr "function"); ("name", function_name);
         ("content", VStr content)].

Definition corrective_message : value :=
  message "system"
    (VStr "Action Input and Final Answer can't be null simultaneously").

Definition sentinel : value := VStr "Error: Maximum retries reached.".

(** [str(v)] for the values that can be dictionary keys; lists and
    dictionaries are unhashable. *)
Definition key_text (v : value) : option string :=
  match v with
  | VNone => Some "None"
  | VBool true => Some "True"
  | VBool false => Some "False"
  | VInt z => Some (NilZero.string_of_int (Z.to_int z))
  | VFloat f => Some (float_repr f)
  | VStr s => Some s
  | VList _ | VDict _ => None
  end.

(** [d.get(k)] on a dictionary whose keys are all strings. *)
Definition lookup_key {A} (d : dict A) (k : value) : option A :=
  match k with
  | VStr s => dict_get s d
  | _ => None
  end.

Definition call_function (self : Agent) (function_name : value)
    (kwargs : dict value) : M value :=
  match key_text function_name with
  | None => lift (Raise TypeError)
  | Some shown =>
      match lookup_key (functions self) function_name with
      | None =>
          mret (VDict [("error", VStr ("Unknown function '" +:+ shown +:+ "'"))])
      | Some function => apply function kwargs
      end
  end.

(** The keyword arguments of [self.call_function(function_name, **arguments)]:
    [arguments] must be a mapping and must not rebind [self] or
    [function_name]. *)
Definition unpack (arguments : value) : res (dict value) :=
  match arguments with
  | VDict d =>
      if existsb (fun k => String.eqb k "self" || String.eqb k "function_name")
           (keys d)
      then Raise TypeError
      else Ok d
  | _ => Raise TypeError
  end.

(** The transcript of [self] in store [w]. *)
Definition transcript (self : Agent) (w : world) : list value :=
  default [] (heap w !! conversation self).

Definition response_format (self : Agent) : value :=
  VDict [("type", VStr "json_schema");
         ("json_schema",
          VDict [("name", VStr "response_schema");
                 ("schema", response_schema self);
                 ("strict", VBool true)])].

Definition tick (w : world) : world :=
  {| clock := S (clock w); heap := heap w |}.

(** The completion request of one iteration. *)
Definition request (self : Agent) : M string :=
  fun w =>
    (create (clock w) "gpt-4o" (transcript self w) (response_format self),
     tick w).

(** How one pass through the loop body ends: with [return v] or by
    falling through to the next pass. *)
Inductive flow : Type :=
| Return (v : value)
| Next.

(** The [if]/[elif]/[else] on the parsed response. *)
Definition handle_response (self : Agent) (structured_output : value) : M flow :=
  final_answer ← lift (get structured_output "Final Answer");
  if truthy final_answer then mret (Return final_answer)
  else
    action_input ← lift (get structured_output "Action Input");
    if truthy action_input then
      function_name ← lift (get action_input "name");
      arguments ← lift (get_default action_input "arguments" (VDict []));
      kwargs ← lift (unpack arguments);
      function_result ← call_function self function_name kwargs;
      append (conversation self)
        (function_message function_name (json_dumps None function_result));;
      mret Next
    else
      append (conversation self) corrective_message;;
      mret Next.

(** One pass through the loop body.  [pretty_print_response] only
    prints; on a parsed value that is not a dictionary it raises the
    [AttributeError] that [handle_response] raises as well. *)
Definition iteration (self : Agent) : M flow :=
  response_message ← request self;
  append (conversation self) (message "assistant" (VStr response_message));;
  structured_output ← lift (json_loads response_message);
  handle_response self structured_output.

(** [for _ in range(n)] followed by the final [return]. *)
Fixpoint loop (self : Agent) (n : nat) : M value :=
  match n with
  | O => mret sentinel
  | S n' =>
      r ← iteration self;
      match r with
      | Return v => mret v
      | Next => loop self n'
      end
  end.

Definition default_max_retries : Z := 100.

(** [max_retries = None] is a call that leaves the keyword out. *)
Definition call (self : Agent) (user_input : value) (max_retries : option Z)
  : M value :=
  let max_retries := default default_max_retries max_retries in
  append (conversation self) (message "user" user_input);;
  loop self (Z.to_nat max_retries).

(** [pretty_print_response], with the standard output as the list of
    the texts handed to [print] (each is followed by a newline). *)
Definition emoji_map : dict string :=
  [("Thought", "💭"); ("Action", "🎬"); ("Action Input", "🛠️");
   ("Observation", "👀"); ("Final Answer", "✅")].

Definition response_header : string :=
  "
-------------------------------------------------------------------------------- LLM Response --------------------------------------------------------------------------------".

Definition response_footer : string :=
  "-------------------------------------------------------------------------------- End of Response --------------------------------------------------------------------------------
".

Definition field_line (key : string) (value : value) : string :=
  let emoji := default "" (dict_get key emoji_map) in
  let value_str :=
    match value with
    | VNone => "❌"
    | VStr "NONE" => "❌"
    | _ => json_dumps (Some 4%nat) value
    end in
  emoji +:+ " " +:+ key +:+ ": " +:+ value_str.

Fixpoint print_fields (response_json : value) (fields : list string)
    (printed : list string) : res unit * list string :=
  match fields with
  | [] => (Ok tt, printed ++ [response_footer])
  | key :: fields' =>
      match get response_json key with
      | Ok value =>
          print_fields response_json fields' (printed ++ [field_line key value])
      | Raise e => (Raise e, printed)
      end
  end.

Definition pretty_print_response (response_json : value)
  : res unit * list string :=
  print_fields response_json
    ["Thought"; "Action"; "Action Input"; "Observation"; "Final Answer"]
    [response_header].

(** [recipient_mapping[recipient_name]] *)
Definition mapping_getitem {A} (d : dict A) (k : value) : res A :=
  match k with
  | VList _ | VDict _ => Raise TypeError
  | _ =>
      match lookup_key d k with
      | Some x => Ok x
      | None => Raise KeyError
      end
  end.

(** The function object made by the [def] inside [_register_recipients].
    The closure reads [recipient_mapping] and [RecipientsEnum] when it
    is called, which is after registration has finished. *)
Definition generated_function (recipient_mapping : dict Agent)
    (RecipientsEnum : annotation) (function_doc : string) : pyfunc :=
  {| signature :=
       [ {| param_name := "message";
            param_kind := POSITIONAL_OR_KEYWORD;
            param_annotation := Some (AClass c_str);
            param_default := None |};
         {| param_name := "recipient_name";
            param_kind := POSITIONAL_OR_KEYWORD;
            param_annotation := Some RecipientsEnum;
            param_default := None |};
         {| param_name := "function_doc";
            param_kind := POSITIONAL_OR_KEYWORD;
            param_annotation := None;
            param_default := Some (VStr function_doc) |} ];
     doc := None;
     body := fun args =>
       let message := default VNone (dict_get "message" args) in
       let recipient_name := default VNone (dict_get "recipient_name" args) in
       recipient ← lift (mapping_getitem recipient_mapping recipient_name);
       call recipient message None |}.

Definition enum_members (recipients : list (Agent * string)) : dict string :=
  fold_left
    (fun members '(recipient, _) =>
       dict_set (lower (name recipient)) (lower (name recipient)) members)
    recipients [].

Definition recipient_mapping (recipients : list (Agent * string)) : dict Agent :=
  fold_left
    (fun mapping '(recipient, _) =>
       dict_set (lower (name recipient)) recipient mapping)
    recipients [].

(** The class [Enum("RecipientsEnum", enum_members)], or the exception
    the constructor raises. *)
Definition RecipientsEnum (recipients : list (Agent * string)) : res annotation :=
  Enum "RecipientsEnum" (enum_members recipients).

Definition function_name_of (recipient : Agent) : string :=
  "talk_to_" +:+ lower (name recipient).

Definition function_doc_of (recipient : Agent) (description : string) : string :=
  "Ask " +:+ name recipient +:+ ", which " +:+ description +:+ ".".

(** The registry after [_register_recipients]; when the enumeration
    cannot be made, nothing has been registered yet. *)
Definition _register_recipients (functions : dict pyfunc)
    (recipients : list (Agent * string)) : res (dict pyfunc) :=
  RecipientsEnum ← RecipientsEnum recipients;
  Ok (fold_left
        (fun functions '(recipient, description) =>
           dict_set (function_name_of recipient)
             (generated_function (recipient_mapping recipients)
                RecipientsEnum
                (function_doc_of recipient description))
             functions)
        recipients functions).

(** A text in which every backquote stands for a double quote. *)
Fixpoint quotes (s : string) : string :=
  match s with
  | EmptyString => EmptyString
  | String c s' =>
      String (if Ascii.eqb c "`" then "034"%char else c) (quotes s')
  end.

Definition _generate_system_prompt (tool_schema : string)
    (examples additional_instructions : option string) : string :=
  let current_date := today in
  let prompt := "" in
  let prompt :=
    match additional_instructions with
    | Some a =>
        if String.eqb a "" then prompt
        else prompt +:+ strip a +:+ "
"
    | None => prompt
    end in
  let prompt :=
    prompt +:+ "
You reason and act to solve user queries. Today's date is "
      +:+ current_date +:+ quotes ".
Your responses must always be valid JSON following this schema:

{
    `Thought`: `string`,
    `Action`: `CALL_FUNCTION` or `NONE`,
    `Action Input`: {
        `name`: `string (function name)`,
        `arguments`: {`any`: `object (function arguments)`}
    } or null,
    `Observation`: `string or object or null`,
    `Final Answer`: `string or null`
}

You are also an AI that can call functions using the schema below:
    " +:+ tool_schema +:+ "
" in
  let prompt :=
    match examples with
    | Some e =>
        if String.eqb e "" then prompt
        else prompt +:+ "

EXAMPLES:
" +:+ e +:+ "
"
    | None => prompt
    end in
  prompt +:+ "
When executing a function call, omit Final_Answer.
If a function call fails, adjust parameters and retry.
Only output valid JSON; no extraneous text.
".

(** [Agent(name, functions, recipients, system_prompt, examples,
    additional_instructions)]; [ref] is the identity of the new
    transcript list. *)
Definition __init__ (ref : nat) (name : string) (functions : dict pyfunc)
    (recipients : list (Agent * string))
    (system_prompt examples additional_instructions : option string)
  : M Agent :=
  functions ← lift (_register_recipients functions recipients);
  tool_schema ← lift (schemas.extract_function_schema functions);
  let system_prompt :=
    match system_prompt with
    | Some p => p
    | None => _generate_system_prompt tool_schema examples additional_instructions
    end in
  write ref [message "system" (VStr system_prompt)];;
  response_schema ← lift (schemas.generate_response_schema tool_schema);
  mret (mkAgent name functions recipients tool_schema system_prompt ref
          response_schema).

End with_runtime.

End agent.

(** ** A concrete runtime

    A printer and a reader for JSON as the [json] module writes and
    reads it (within the limits the interpreter sets to the nesting
    and to the number of digits of an integer), and a scripted
    completion service.  They give the runtime under which the examples
    below are evaluated. *)

Module demo.

Definition dquote : ascii := "034"%char.
Definition newline : ascii := "010"%char.

Definition code (c : ascii) : Z := Z.of_nat (nat_of_ascii c).
Definition byte (n : Z) : ascii := ascii_of_nat (Z.to_nat n).

Definition hex_digit (n : Z) : ascii :=
  if n <? 10 then byte (48 + n) else byte (87 + n).

Definition hex4 (n : Z) : string :=
  String (hex_digit (n / 4096 mod 16))
    (String (hex_digit (n / 256 mod 16))
       (String (hex_digit (n / 16 mod 16))
          (String (hex_digit (n mod 16)) EmptyString))).

(** The escape of a character that is not printable ASCII: one
    [\uXXXX] in the basic plane, a surrogate pair above it. *)
Definition unicode_escape (cp : Z) : string :=
  if cp <? 65536 then "\u" +:+ hex4 cp
  else
    let v := cp - 65536 in
    "\u" +:+ hex4 (55296 + v / 1024) +:+ "\u" +:+ hex4 (56320 + v mod 1024).

Definition ascii_escape (c : ascii) : string :=
  let n := code c in
  if Ascii.eqb c dquote then String "\" (String dquote EmptyString)
  else if Ascii.eqb c "\" then "\\"
  else if Ascii.eqb c newline then "\n"
  else if Ascii.eqb c "013" then "\r"
  else if Ascii.eqb c "009" then "\t"
  else if Ascii.eqb c "008" then "\b"
  else if Ascii.eqb c "012" then "\f"
  else if (n <? 32) || (n =? 127) then unicode_escape n
  else String c EmptyString.

(** The body of a string literal as [json.dumps] writes it, which is
    in ASCII: the characters of the text are read off its bytes. *)
Fixpoint escape (s : string) : string :=
  match s with
  | EmptyString => EmptyString
  | String c1 s1 =>
      let n1 := code c1 in
      if n1 <? 128 then ascii_escape c1 +:+ escape s1
      else
        match s1 with
        | EmptyString => unicode_escape n1
        | String c2 s2 =>
            let n2 := code c2 - 128 in
            if n1 <? 224 then
              unicode_escape ((n1 - 192) * 64 + n2) +:+ escape s2
            else
              match s2 with
              | EmptyString => unicode_escape n1
              | String c3 s3 =>
                  let n3 := code c3 - 128 in
                  if n1 <? 240 then
                    unicode_escape (((n1 - 224) * 64 + n2) * 64 + n3)
                      +:+ escape s3
                  else
                    match s3 with
                    | EmptyString => unicode_escape n1
                    | String c4 s4 =>
                        let n4 := code c4 - 128 in
                        unicode_escape
                          ((((n1 - 240) * 64 + n2) * 64 + n3) * 64 + n4)
                          +:+ escape s4
                    end
              end
        end
  end.

Definition quoted (s : string) : string :=
  String dquote (escape s +:+ String dquote EmptyString).

Fixpoint join (sep : string) (l : list string) : string :=
  match l with
  | [] => EmptyString
  | [x] => x
  | x :: l' => x +:+ sep +:+ join sep l'
  end.

Fixpoint spaces (n : nat) : string :=
  match n with
  | O => EmptyString
  | S n' => String " " (spaces n')
  end.

(** Opening bracket, items and closing bracket at nesting depth [level]. *)
Definition bracket (indent : option nat) (level : nat) (l r : string)
    (items : list string) : string :=
  match items, indent with
  | [], _ => l +:+ r
  | _, None => l +:+ join ", " items +:+ r
  | _, Some n =>
      let inner := String newline (spaces (n * S level)) in
      l +:+ inner +:+ join ("," +:+ inner) items
        +:+ String newline (spaces (n * level)) +:+ r
  end.

(** *** Numbers

    [repr] of a float gives the shortest digits that read back as the
    same float: the digits are generated from the exact value and the
    exact half-way points to its neighbours. *)

Fixpoint digits_of (fuel : nat) (n : Z) (acc : string) : string :=
  match fuel with
  | O => acc
  | S fuel' =>
      let acc' := String (ascii_of_nat (48 + Z.to_nat (n mod 10))) acc in
      if n <? 10 then acc' else digits_of fuel' (n / 10) acc'
  end.

(** The decimal digits of a natural number. *)
Definition decimal (n : Z) : string :=
  digits_of (S (Z.to_nat (Z.log2 n))) n EmptyString.

(** [scale] finds the position [k] of the decimal point: the least [k]
    with [(r + mp) / s] below [10 ^ k] (or at most, when the upper
    bound is not included). *)
Fixpoint scale (fuel : nat) (inclusive : bool) (r s mp mm k : Z)
  : Z * Z * Z * Z * Z :=
  match fuel with
  | O => (r, s, mp, mm, k)
  | S fuel' =>
      if (if inclusive then s <=? r + mp else s <? r + mp)
      then scale fuel' inclusive r (s * 10) mp mm (k + 1)
      else if (if inclusive then (r + mp) * 10 <? s else (r + mp) * 10 <=? s)
      then scale fuel' inclusive (r * 10) s (mp * 10) (mm * 10) (k - 1)
      else (r, s, mp, mm, k)
  end.

Fixpoint generate (fuel : nat) (inclusive : bool) (r s mp mm : Z) : string :=
  match fuel with
  | O => EmptyString
  | S fuel' =>
      let d := r * 10 / s in
      let r := r * 10 mod s in
      let mp := mp * 10 in
      let mm := mm * 10 in
      let low := if inclusive then r <=? mm else r <? mm in
      let high := if inclusive then s <=? r + mp else s <? r + mp in
      let digit (d : Z) := String (ascii_of_nat (48 + Z.to_nat d)) EmptyString in
      match low, high with
      | false, false => digit d +:+ generate fuel' inclusive r s mp mm
      | true, false => digit d
      | false, true => digit (d + 1)
      | true, true =>
          if 2 * r <? s then digit d
          else if s <? 2 * r then digit (d + 1)
          else if Z.even d then digit d else digit (d + 1)
      end
  end.

(** The shortest digits of [m * 2 ^ e] and the position of its decimal
    point: the value is [0.d1d2...] times ten to that power. *)
Definition shortest (m : positive) (e : Z) : string * Z :=
  let f := Zpos m in
  let inclusive := Z.even f in
  let boundary := (f =? 2 ^ 52) && (-1074 <? e) in
  let '(r, s, mp, mm) :=
    if 0 <=? e then
      if boundary then (f * 2 ^ e * 4, 4, 2 ^ (e + 1), 2 ^ e)
      else (f * 2 ^ e * 2, 2, 2 ^ e, 2 ^ e)
    else
      if boundary then (f * 4, 2 ^ (- e) * 4, 2, 1)
      else (f * 2, 2 ^ (- e) * 2, 1, 1) in
  let '(r, s, mp, mm, k) := scale 800 inclusive r s mp mm 0 in
  (generate 40 inclusive r s mp mm, k).

Fixpoint zeros (n : nat) : string :=
  match n with
  | O => EmptyString
  | S n' => String "0" (zeros n')
  end.

(** [repr] of a positive finite float from its digits: exponent
    notation when the decimal point falls more than sixteen places to
    the right or more than three to the left of the first digit. *)
Definition layout (digits : string) (k : Z) : string :=
  let n := Z.of_nat (String.length digits) in
  if (k <=? -4) || (16 <? k) then
    let e := k - 1 in
    let mantissa :=
      match digits with
      | String d EmptyString => String d EmptyString
      | String d rest => String d ("." +:+ rest)
      | EmptyString => EmptyString
      end in
    let exponent := decimal (Z.abs e) in
    mantissa +:+ (if e <? 0 then "e-" else "e+")
      +:+ (if Z.abs e <? 10 then "0" else "") +:+ exponent
  else if k <=? 0 then "0." +:+ zeros (Z.to_nat (- k)) +:+ digits
  else if n <=? k then digits +:+ zeros (Z.to_nat (k - n)) +:+ ".0"
  else substring 0 (Z.to_nat k) digits +:+ "."
         +:+ substring (Z.to_nat k) (Z.to_nat (n - k)) digits.

(** [repr(f)]; [nan] and the infinities are written as [special]
    says. *)
Definition float_text (special : string * string * string) (f : float) : string :=
  let '(nan_text, inf_text, neg_inf_text) := special in
  match Prim2SF f with
  | S754_nan => nan_text
  | S754_infinity false => inf_text
  | S754_infinity true => neg_inf_text
  | S754_zero false => "0.0"
  | S754_zero true => "-0.0"
  | S754_finite sign m e =>
      let '(digits, k) := shortest m e in
      (if sign then "-" else "") +:+ layout digits k
  end.

Definition repr_float : float -> string := float_text ("nan", "inf", "-inf").
Definition json_float : float -> string :=
  float_text ("NaN", "Infinity", "-Infinity").

(** The float nearest to [n * 10 ^ k], ties to the even mantissa, as
    [float] makes it from a decimal literal.  Beyond the first two
    tests the value is above the largest float or below half the
    smallest. *)
Definition nearest_float (negative : bool) (n k : Z) : float :=
  if n =? 0 then (if negative then neg_zero else zero)
  else if 310 <? k then (if negative then neg_infinity else infinity)
  else if k + Z.log2 n / 3 + 1 <? -324
  then (if negative then neg_zero else zero)
  else
    let num := if 0 <=? k then n * 10 ^ k else n in
    let den := if 0 <=? k then 1 else 10 ^ (- k) in
    (* the exponent of the unit in the last place *)
    let e0 := Z.log2 num - Z.log2 den - 53 in
    let quotient (e : Z) :=
      if 0 <=? e then (num / (den * 2 ^ e), num mod (den * 2 ^ e), den * 2 ^ e)
      else (num * 2 ^ (- e) / den, (num * 2 ^ (- e)) mod den, den) in
    let e1 := let '(q, _, _) := quotient e0 in
              if 2 ^ 53 <=? q then e0 + 1 else e0 in
    let e2 := let '(q, _, _) := quotient e1 in
              if 2 ^ 53 <=? q then e1 + 1 else e1 in
    let e := Z.max e2 (-1074) in
    let '(q, rem, d) := quotient e in
    let q :=
      if d <? 2 * rem then q + 1
      else if 2 * rem =? d then (if Z.even q then q else q + 1)
      else q in
    let '(q, e) := if q =? 2 ^ 53 then (2 ^ 52, e + 1) else (q, e) in
    if q =? 0 then (if negative then neg_zero else zero)
    else if 971 <? e then (if negative then neg_infinity else infinity)
    else SF2Prim (S754_finite negative (Z.to_pos q) e).

Section dumps.
Variable indent : option nat.

Fixpoint dumps_at (level : nat) (v : value) : string :=
  match v with
  | VNone => "null"
  | VBool true => "true"
  | VBool false => "false"
  | VInt z => (if z <? 0 then "-" else "") +:+ decimal (Z.abs z)
  | VFloat f => json_float f
  | VStr s => quoted s
  | VList l => bracket indent level "[" "]" (map (dumps_at (S level)) l)
  | VDict d =>
      bracket indent level "{" "}"
        ((fix members (d : list (string * value)) : list string :=
            match d with
            | [] => []
            | (k, x) :: d' =>
                (quoted k +:+ ": " +:+ dumps_at (S level) x) :: members d'
            end) d)
  end.

End dumps.

Definition dumps (indent : option nat) (v : value) : string :=
  dumps_at indent 0 v.

(** *** Reading *)

Definition is_ws (c : ascii) : bool :=
  Ascii.eqb c " " || Ascii.eqb c newline || Ascii.eqb c "013" || Ascii.eqb c "009".

Fixpoint skip_ws (s : list ascii) : list ascii :=
  match s with
  | c :: s' => if is_ws c then skip_ws s' else s
  | [] => []
  end.

Definition digit_of (c : ascii) : option Z :=
  let n := code c in
  if (48 <=? n) && (n <=? 57) then Some (n - 48) else None.

(** The number the leading digits spell after [acc], how many they
    are, and the text after them. *)
Fixpoint read_digits (s : list ascii) (acc : Z) (count : Z)
  : Z * Z * list ascii :=
  match s with
  | c :: s' =>
      match digit_of c with
      | Some d => read_digits s' (10 * acc + d) (count + 1)
      | None => (acc, count, s)
      end
  | [] => (acc, count, [])
  end.

Definition hex_of (c : ascii) : option Z :=
  let n := code c in
  if (48 <=? n) && (n <=? 57) then Some (n - 48)
  else if (97 <=? n) && (n <=? 102) then Some (n - 87)
  else if (65 <=? n) && (n <=? 70) then Some (n - 55)
  else None.

Definition hex4_of (a b c d : ascii) : option Z :=
  match hex_of a, hex_of b, hex_of c, hex_of d with
  | Some x, Some y, Some z, Some t => Some (((x * 16 + y) * 16 + z) * 16 + t)
  | _, _, _, _ => None
  end.

(** The bytes of a character; a lone surrogate is given the three
    bytes of its number. *)
Definition encode (cp : Z) (rest : string) : string :=
  if cp <? 128 then String (byte cp) rest
  else if cp <? 2048 then
    String (byte (192 + cp / 64)) (String (byte (128 + cp mod 64)) rest)
  else if cp <? 65536 then
    String (byte (224 + cp / 4096))
      (String (byte (128 + cp / 64 mod 64))
         (String (byte (128 + cp mod 64)) rest))
  else
    String (byte (240 + cp / 262144))
      (String (byte (128 + cp / 4096 mod 64))
         (String (byte (128 + cp / 64 mod 64))
            (String (byte (128 + cp mod 64)) rest))).

(** The text of a string literal after its opening quote. *)
Fixpoint read_string (s : list ascii) : option (string * list ascii) :=
  match s with
  | [] => None
  | c :: s' =>
      if Ascii.eqb c dquote then Some (EmptyString, s')
      else if Ascii.eqb c "\" then
        match s' with
        | e :: s'' =>
            let plain (x : ascii) (rest : list ascii) :=
              match read_string rest with
              | Some (t, r) => Some (String x t, r)
              | None => None
              end in
            if Ascii.eqb e "n" then plain newline s''
            else if Ascii.eqb e "r" then plain "013"%char s''
            else if Ascii.eqb e "t" then plain "009"%char s''
            else if Ascii.eqb e "b" then plain "008"%char s''
            else if Ascii.eqb e "f" then plain "012"%char s''
            else if Ascii.eqb e "/" then plain "/"%char s''
            else if Ascii.eqb e "\" then plain "\"%char s''
            else if Ascii.eqb e dquote then plain dquote s''
            else if Ascii.eqb e "u" then
              match s'' with
              | a :: b :: c1 :: c2 :: rest =>
                  match hex4_of a b c1 c2 with
                  | Some high =>
                      let single :=
                        match read_string rest with
                        | Some (t, r) => Some (encode high t, r)
                        | None => None
                        end in
                      if (55296 <=? high) && (high <? 56320) then
                        match rest with
                        | b1 :: u1 :: a' :: b' :: c1' :: c2' :: rest' =>
                            if Ascii.eqb b1 "\" && Ascii.eqb u1 "u" then
                              match hex4_of a' b' c1' c2' with
                              | Some low =>
                                  if (56320 <=? low) && (low <? 57344) then
                                    match read_string rest' with
                                    | Some (t, r) =>
                                        Some (encode
                                                (65536 + (high - 55296) * 1024
                                                 + (low - 56320)) t, r)
                                    | None => None
                                    end
                                  else single
                              | None => single
                              end
                            else single
                        | _ => single
                        end
                      else single
                  | None => None
                  end
              | _ => None
              end
            else None
        | [] => None
        end
      else if code c <? 32 then None
      else
        match read_string s' with
        | Some (t, r) => Some (String c t, r)
        | None => None
        end
  end.

Definition starts_with (p : string) (s : list ascii) : option (list ascii) :=
  let n := String.length p in
  if String.eqb (string_of_list_ascii (take n s)) p then Some (drop n s) else None.

(** A number: an optional minus sign, the integer part (a zero, or
    digits that do not begin with a zero), then a fraction and an
    exponent if they are complete.  It is an [int] without them and a
    [float] with either. *)
Definition read_number (s : list ascii) : option (value * list ascii) :=
  let '(negative, s1) :=
    match s with
    | c :: s' => if Ascii.eqb c "-" then (true, s') else (false, s)
    | [] => (false, [])
    end in
  let whole :=
    match s1 with
    | c :: s2 =>
        if Ascii.eqb c "0" then Some (0, s2)
        else
          match digit_of c with
          | Some _ => let '(n, _, r) := read_digits s1 0 0 in Some (n, r)
          | None => None
          end
    | [] => None
    end in
  match whole with
  | None => None
  | Some (n, r) =>
      let '(n1, places, r1, fraction) :=
        match r with
        | dot :: (c :: _) as r' =>
            match Ascii.eqb dot ".", digit_of c with
            | true, Some _ =>
                let '(n', count, r'') := read_digits r' n 0 in
                (n', count, r'', true)
            | _, _ => (n, 0, r, false)
            end
        | _ => (n, 0, r, false)
        end in
      let '(exponent, r2, scientific) :=
        match r1 with
        | e :: r' =>
            if Ascii.eqb e "e" || Ascii.eqb e "E" then
              let '(minus, r'') :=
                match r' with
                | sign :: t =>
                    if Ascii.eqb sign "-" then (true, t)
                    else if Ascii.eqb sign "+" then (false, t)
                    else (false, r')
                | [] => (false, r')
                end in
              match r'' with
              | c :: _ =>
                  match digit_of c with
                  | Some _ =>
                      let '(x, _, t) := read_digits r'' 0 0 in
                      (if minus then - x else x, t, true)
                  | None => (0, r1, false)
                  end
              | [] => (0, r1, false)
              end
            else (0, r1, false)
        | [] => (0, r1, false)
        end in
      if fraction || scientific
      then Some (VFloat (nearest_float negative n1 (exponent - places)), r2)
      else Some (VInt (if negative then - n1 else n1), r2)
  end.

Fixpoint read_value (fuel : nat) (s : list ascii) : option (value * list ascii) :=
  match fuel with
  | O => None
  | S fuel' =>
      let s := skip_ws s in
      match s with
      | [] => None
      | c :: r =>
          if Ascii.eqb c dquote then
            match read_string r with
            | Some (t, r') => Some (VStr t, r')
            | None => None
            end
          else if Ascii.eqb c "[" then
            match skip_ws r with
            | x :: r' =>
                if Ascii.eqb x "]" then Some (VList [], r')
                else read_items fuel' r []
            | [] => None
            end
          else if Ascii.eqb c "{" then
            match skip_ws r with
            | x :: r' =>
                if Ascii.eqb x "}" then Some (VDict [], r')
                else read_members fuel' r []
            | [] => None
            end
          else
            match starts_with "null" s, starts_with "true" s,
                  starts_with "false" s, starts_with "NaN" s,
                  starts_with "Infinity" s, starts_with "-Infinity" s with
            | Some r', _, _, _, _, _ => Some (VNone, r')
            | _, Some r', _, _, _, _ => Some (VBool true, r')
            | _, _, Some r', _, _, _ => Some (VBool false, r')
            | _, _, _, Some r', _, _ => Some (VFloat nan, r')
            | _, _, _, _, Some r', _ => Some (VFloat infinity, r')
            | _, _, _, _, _, Some r' => Some (VFloat neg_infinity, r')
            | _, _, _, _, _, _ => read_number s
            end
      end
  end
with read_items (fuel : nat) (s : list ascii) (acc : list value)
  : option (value * list ascii) :=
  match fuel with
  | O => None
  | S fuel' =>
      match read_value fuel' s with
      | Some (v, r) =>
          match skip_ws r with
          | x :: r' =>
              if Ascii.eqb x "," then read_items fuel' r' (acc ++ [v])
              else if Ascii.eqb x "]" then Some (VList (acc ++ [v]), r')
              else None
          | [] => None
          end
      | None => None
      end
  end
with read_members (fuel : nat) (s : list ascii) (acc : dict value)
  : option (value * list ascii) :=
  match fuel with
  | O => None
  | S fuel' =>
      match skip_ws s with
      | q :: r0 =>
          if Ascii.eqb q dquote then
            match read_string r0 with
            | Some (k, r1) =>
                match skip_ws r1 with
                | colon :: r2 =>
                    if Ascii.eqb colon ":" then
                      match read_value fuel' r2 with
                      | Some (v, r3) =>
                          match skip_ws r3 with
                          | x :: r4 =>
                              if Ascii.eqb x "," then
                                read_members fuel' r4 (dict_set k v acc)
                              else if Ascii.eqb x "}" then
                                Some (VDict (dict_set k v acc), r4)
                              else None
                          | [] => None
                          end
                      | None => None
                      end
                    else None
                | [] => None
                end
            | None => None
            end
          else None
      | [] => None
      end
  end.

Definition loads (s : string) : res value :=
  let l := list_ascii_of_string s in
  match read_value (2 * length l + 2) l with
  | Some (v, r) =>
      match skip_ws r with
      | [] => Ok v
      | _ => Raise JSONDecodeError
      end
  | None => Raise JSONDecodeError
  end.

(** The completion service answers the [t]-th request with the [t]-th
    entry of a script, and fails once the script is used up.  The
    examples name their agents in ASCII and with plain member names;
    beyond that this runtime maps the case of the letters A-Z only and
    makes no enumeration. *)
Definition scripted (script : list string) : Runtime :=
  {| json_dumps := dumps;
     json_loads := loads;
     float_repr := repr_float;
     create := fun t _ _ _ =>
       match script !! t with
       | Some s => Ok s
       | None => Raise (Exception "no completion")
       end;
     today := "2025-03-01";
     unicode_lower := ascii_lower;
     unicode_capitalize := ascii_capitalize;
     special_enum := fun _ _ => Raise ValueError |}.

End demo.


(** ** Vocabulary of the properties *)

Module props.
Import agent.

(** The store after [msgs] have been appended to the list [ref]. *)
Definition appended (ref : nat) (msgs : list value) (w : world) : world :=
  {| clock := clock w;
     heap := <[ref := default [] (heap w !! ref) ++ msgs]> (heap w) |}.

(** The store in which the response of a pass is handled. *)
Definition answered (self : Agent) (raw : string) (w : world) : world :=
  appended (conversation self) [message "assistant" (VStr raw)] (tick w).

(** The store in which the loop of a call starts. *)
Definition asked (self : Agent) (user_input : value) (w : world) : world :=
  appended (conversation self) [message "user" user_input] w.

(** The payload [call_function] returns for a name it does not know. *)
Definition unknown_function (shown : string) : value :=
  VDict [("error", VStr ("Unknown function '" +:+ shown +:+ "'"))].

(** [passes self n w] is the store after [n] passes through the loop
    body that all fall through to the next pass, if that is how the
    next [n] passes go. *)
Fixpoint passes `{RT : Runtime} (self : Agent) (n : nat) (w : world)
  : option world :=
  match n with
  | O => Some w
  | S n' =>
      match iteration self w with
      | (Ok Next, w') => passes self n' w'
      | _ => None
      end
  end.

(** Whether a computation ended without an exception. *)
Definition succeeded {A} (r : res A) : bool :=
  match r with
  | Ok _ => true
  | Raise _ => false
  end.


(** A function that leaves the list [ref] alone, whatever else it does. *)
Definition preserves (ref : nat) (f : pyfunc) : Prop :=
  forall args w, heap (body f args w).2 !! ref = heap w !! ref.

(** The three fields the response-schema builder reads from a tool
    definition. *)
Definition tool_fields (tool : value) : option (value * value * value) :=
  match tool with
  | VDict t =>
      match dict_get "function" t with
      | Some (VDict f) =>
          match dict_get "name" f, dict_get "description" f,
                dict_get "parameters" f with
          | Some n, Some d, Some p => Some (n, d, p)
          | _, _, _ => None
          end
      | _ => None
      end
  | _ => None
  end.

Definition is_tool_definition (tool : value) : bool :=
  match tool_fields tool with
  | Some _ => true
  | None => false
  end.

(** The [anyOf] list of the [Action Input] property of an output schema. *)
Definition action_input_branches (schema : value) : option (list value) :=
  match getitem schema "properties" with
  | Ok properties =>
      match getitem properties "Action Input" with
      | Ok action_input =>
          match getitem action_input "anyOf" with
          | Ok (VList branches) => Some branches
          | _ => None
          end
      | Raise _ => None
      end
  | Raise _ => None
  end.

(** The single name a branch admits, if it is a tool branch. *)
Definition branch_name (b : value) : option value :=
  match getitem b "properties" with
  | Ok properties =>
      match getitem properties "name" with
      | Ok n =>
          match getitem n "enum" with
          | Ok (VList [x]) => Some x
          | _ => None
          end
      | Raise _ => None
      end
  | Raise _ => None
  end.

Definition branch_arguments (b : value) : option value :=
  match getitem b "properties" with
  | Ok properties =>
      match getitem properties "arguments" with
      | Ok a => Some a
      | Raise _ => None
      end
  | Raise _ => None
  end.

(** The store [w] with the list [ref] holding [l]. *)
Definition with_list (ref : nat) (l : list value) (w : world) : world :=
  {| clock := clock w; heap := <[ref := l]> (heap w) |}.

(** A function that neither reads nor writes the list [ref]: it does
    the same whatever that list holds, and leaves it as it found it. *)
Definition independent (ref : nat) (f : pyfunc) : Prop :=
  forall args l w,
    body f args (with_list ref l w)
    = ((body f args w).1, with_list ref l (body f args w).2).

(** The two inner loops of [get_schema_for_type], by name: the
    properties collected for the fields of a [TypedDict], and the
    schemas of the members of a [Union]. *)
Fixpoint typed_dict_properties (fs : list (string * annotation))
    (properties : dict value) : res (dict value) :=
  match fs with
  | [] => Ok properties
  | (key, val) :: fs' =>
      res_bind (schemas.get_schema_for_type val)
        (fun s => typed_dict_properties fs' (dict_set key (VDict s) properties))
  end.

Fixpoint union_branches (l : list annotation) : res (list value) :=
  match l with
  | [] => Ok []
  | arg :: l' =>
      res_bind (schemas.get_schema_for_type arg)
        (fun s => res_bind (union_branches l') (fun ss => Ok (VDict s :: ss)))
  end.

(** Whether [hash] accepts every object of an annotation that the
    mapper may come to look up in the table of basic types. *)
Fixpoint hashable (a : annotation) : bool :=
  match a with
  | ANone | AClass _ | AEnum _ => true
  | ATypedDict fields => forallb (fun f => hashable f.2) fields
  | AUnion args | AList args | ADict args => forallb hashable args
  | AOther h => h
  end.

(** What the mapper may raise on an annotation: [ValueError], or
    [TypeError] when some part of the annotation cannot be hashed. *)
Definition mapper_error (a : annotation) (e : exn) : Prop :=
  e = ValueError \/ (e = TypeError /\ hashable a = false).

(** A function that issues no completion request. *)
Definition keeps_clock (f : pyfunc) : Prop :=
  forall args w, clock (body f args w).2 = clock w.

(** The [required] list and the property names of the parameter
    object of a tool definition. *)
Definition required_parameters (tool : value) : option value :=
  match tool_fields tool with
  | Some (_, _, VDict parameters) => dict_get "required" parameters
  | _ => None
  end.

Definition declared_parameters (tool : value) : option (list string) :=
  match tool_fields tool with
  | Some (_, _, VDict parameters) =>
      match dict_get "properties" parameters with
      | Some (VDict properties) => Some (keys properties)
      | _ => None
      end
  | _ => None
  end.

End props.

(** ** Scenarios *)

Module scenario.
Import agent props.

(** [str(v)] as used by the sample functions, for the values the tool
    schemas admit (strings) and for [None], booleans and integers; the
    JSON text stands in for the rest. *)
Definition text_of (v : value) : string :=
  match v with
  | VStr s => s
  | VNone => "None"
  | VBool true => "True"
  | VBool false => "False"
  | VInt z => NilZero.string_of_int (Z.to_int z)
  | _ => demo.dumps None v
  end.

(** [say_hello] of main.py. *)
Definition say_hello : pyfunc :=
  {| signature := [ {| param_name := "name";
                       param_kind := POSITIONAL_OR_KEYWORD;
                       param_annotation := Some (AClass c_str);
                       param_default := None |} ];
     doc := None;
     body := fun args =>
       mret (VStr ("Hello, " +:+ text_of (default VNone (dict_get "name" args))
                     +:+ "! This is Agent2.")) |}.

(** A function without parameters whose body is [raise Exception("boom")]. *)
Definition failing : pyfunc :=
  {| signature := [];
     doc := Some "Always fails.";
     body := fun _ => lift (Raise (Exception "boom")) |}.

(** A parsed model response with the five fields, and its text. *)
Definition fields (action : string) (action_input final_answer : value)
  : dict value :=
  [("Thought", VStr "thinking");
   ("Action", VStr action);
   ("Action Input", action_input);
   ("Observation", VNone);
   ("Final Answer", final_answer)].

Definition response (action : string) (action_input final_answer : value)
  : string :=
  demo.dumps None (VDict (fields action action_input final_answer)).

Definition action (name : string) (arguments : dict value) : value :=
  VDict [("name", VStr name); ("arguments", VDict arguments)].

Definition answers_42 : string := response "NONE" VNone (VStr "42").
Definition malformed : string := response "NONE" VNone VNone.
Definition calls_failing : string :=
  response "CALL_FUNCTION" (action "failing" []) VNone.
Definition calls_unknown : string :=
  response "CALL_FUNCTION" (action "unknown_fn" []) VNone.
Definition calls_say_hello : string :=
  response "CALL_FUNCTION" (action "say_hello" [("name", VStr "Alice")]) VNone.

Definition empty : world := {| clock := 0; heap := ∅ |}.

(** The agent an [__init__] call returns, and the store it leaves. *)
Definition constructed (m : M Agent) : Agent :=
  match m empty with
  | (Ok a, _) => a
  | (Raise _, _) => mkAgent "" [] [] "" "" 0 VNone
  end.

Definition store_of (m : M Agent) : world := (m empty).2.

(** [Agent(name="Agent2", functions={"say_hello": say_hello})] *)
Definition new_agent2 (script : list string) : M Agent :=
  @__init__ (demo.scripted script) 2 "Agent2" [("say_hello", say_hello)] [] None None None.

Definition agent2 : Agent := constructed (new_agent2 []).

(** [Agent(name="Worker", functions={"failing": failing})] *)
Definition new_worker (script : list string) : M Agent :=
  @__init__ (demo.scripted script) 3 "Worker" [("failing", failing)] [] None None None.

Definition worker : Agent := constructed (new_worker []).


(** The stores in which the sample agents have just been constructed. *)
Definition agent2_store : world := store_of (new_agent2 []).
Definition worker_store : world := store_of (new_worker []).

(** The recipients of [agent1] in main.py. *)
Definition main_recipients : list (Agent * string) :=
  [(agent2, "provides greeting functionality")].

(** [Agent(name="Agent1", recipients=[(agent2, ...)])], constructed in
    the store that holds [agent2].  The functions it synthesizes call
    into the runtime, so the agent is built under the script it is run
    with. *)
Definition new_agent1 (script : list string) : M Agent :=
  @__init__ (demo.scripted script) 1 "Agent1" [] main_recipients None None None.

Definition agent1 (script : list string) : Agent :=
  match new_agent1 script agent2_store with
  | (Ok a, _) => a
  | (Raise _, _) => mkAgent "" [] [] "" "" 0 VNone
  end.

Definition agent1_store : world := (new_agent1 [] agent2_store).2.

(** The run of main.py: [agent1] delegates to [agent2], which calls
    [say_hello] and answers; [agent1] then answers. *)
Definition delegates : string :=
  response "CALL_FUNCTION"
    (action "talk_to_agent2"
       [("message", VStr "Please say hello to Alice.");
        ("recipient_name", VStr "agent2");
        ("function_doc", VStr "")])
    VNone.

Definition main_script : list string :=
  [delegates; calls_say_hello;
   response "NONE" VNone (VStr "Hello, Alice! This is Agent2.");
   response "NONE" VNone (VStr "Agent2 says: Hello, Alice! This is Agent2.")].

(** The runtime whose completion service has nothing to say. *)
Definition quiet : Runtime := demo.scripted [].

(** A registry with two functions and the text of its tool definitions. *)
Definition two_functions : dict pyfunc :=
  [("say_hello", say_hello); ("failing", failing)].

Definition two_tools : list value :=
  match schemas.tool_definitions (RT := quiet) two_functions with
  | Ok tools => tools
  | Raise _ => []
  end.

Definition two_tools_text : string := demo.dumps (Some 4%nat) (VList two_tools).

(** A hundred malformed responses, and the store they lead to. *)
Definition stubborn : list string := repeat malformed 100.

Definition exhausted : world :=
  default empty
    (passes (RT := demo.scripted stubborn) agent2 100
       (asked agent2 (VStr "hello?") agent2_store)).

(** Two parsed responses that differ in [Action] only. *)
Definition says_call : dict value :=
  fields "CALL_FUNCTION" (action "say_hello" [("name", VStr "Alice")]) VNone.

Definition says_none : dict value :=
  fields "NONE" (action "say_hello" [("name", VStr "Alice")]) VNone.

(** Further sample functions: one whose docstring is blank, one with a
    parameter named [function_name], one with an [Optional] parameter. *)
Definition blank_doc : pyfunc :=
  {| signature := [];
     doc := Some "  
 ";
     body := fun _ => mret VNone |}.

Definition describe : pyfunc :=
  {| signature := [ {| param_name := "function_name";
                       param_kind := POSITIONAL_OR_KEYWORD;
                       param_annotation := Some (AClass c_str);
                       param_default := None |} ];
     doc := Some "Describe a function.";
     body := fun args => mret (default VNone (dict_get "function_name" args)) |}.

Definition optional_tool : pyfunc :=
  {| signature :=
       [ {| param_name := "limit";
            param_kind := POSITIONAL_OR_KEYWORD;
            param_annotation :=
              Some (AUnion [AClass c_int; AClass (c_other "NoneType")]);
            param_default := Some VNone |} ];
     doc := None;
     body := fun _ => mret VNone |}.

(** [Agent(name="Librarian", functions={"describe": describe})] *)
Definition librarian : Agent :=
  constructed
    (@__init__ quiet 6 "Librarian" [("describe", describe)] [] None None None).

(** Two peers whose names differ in case only. *)
Definition upper_bob : Agent :=
  constructed (@__init__ quiet 4 "Bob" [] [] None None None).

Definition lower_bob : Agent :=
  constructed (@__init__ quiet 5 "bob" [] [] None None None).

(** A [TypedDict] with an integer and a list of strings, and the
    properties of its schema. *)
Definition point_fields : list (string * annotation) :=
  [("x", AClass c_int); ("tags", AList [AClass c_str])].

Definition point_properties : dict value :=
  [("x", VDict [("type", VStr "integer")]);
   ("tags", VDict [("type", VStr "array");
                   ("items", VDict [("type", VStr "string")])])].

(** The text of a list with one entry that is no tool definition. *)
Definition broken_tools : list value := [VDict [("type", VStr "function")]].
Definition broken_tools_text : string := demo.dumps (Some 4%nat) (VList broken_tools).

(** The tool definitions of the registry of [agent2]. *)
Definition agent2_tools : list value :=
  match schemas.tool_definitions (RT := quiet) [("say_hello", say_hello)] with
  | Ok tools => tools
  | Raise _ => []
  end.

(** A run of [agent2] that calls [say_hello] and then answers. *)
Definition hello_script : list string := [calls_say_hello; answers_42].

Definition hello_run : res value * world :=
  call (RT := demo.scripted hello_script) agent2 (VStr "hi") None agent2_store.

(** A store that holds the transcripts of [agent2] and of [worker], and
    the run of [agent2] in it. *)
Definition shared_store : world := (new_worker [] agent2_store).2.

Definition shared_run : res value * world :=
  call (RT := demo.scripted hello_script) agent2 (VStr "hi") None shared_store.

(** The registry of main.py with a function of the user's beside the
    recipient, and the registry of an agent with the two peers called
    Bob. *)
Definition registry_of (r : res (dict pyfunc)) : dict pyfunc :=
  match r with
  | Ok registry => registry
  | Raise _ => []
  end.

Definition main_registry : dict pyfunc :=
  registry_of
    (_register_recipients (RT := quiet) [("say_hello", say_hello)] main_recipients).

Definition bobs : list (Agent * string) :=
  [(upper_bob, "the first Bob"); (lower_bob, "the second bob")].

Definition bobs_registry : dict pyfunc :=
  registry_of (_register_recipients (RT := quiet) [] bobs).

End scenario.

(** ** The agent loop *)

Section loop_facts.
Context `{RT : Runtime}.
Import agent props.

Lemma append_run ref x w : append ref x w = (Ok tt, appended ref [x] w).
Proof. reflexivity. Qed.

Lemma appended_twice ref xs ys w :
  appended ref ys (appended ref xs w) = appended ref (xs ++ ys) w.
Proof.
  unfold appended; simpl.
  rewrite lookup_insert_eq, insert_insert_eq; simpl.
  by rewrite app_assoc.
Qed.

Lemma transcript_appended self msgs w :
  transcript self (appended (conversation self) msgs w)
  = transcript self w ++ msgs.
Proof. unfold transcript, appended; simpl. by rewrite lookup_insert_eq. Qed.


Lemma iteration_parsed self w raw so :
  create (clock w) "gpt-4o" (transcript self w) (response_format self) = Ok raw ->
  json_loads raw = Ok so ->
  iteration self w = handle_response self so (answered self raw w).
Proof.
  intros Hc Hl. unfold iteration, request, mbind, M_bind.
  rewrite Hc, append_run. unfold lift. by rewrite Hl.
Qed.

Lemma handle_final self d fa w :
  dict_get "Final Answer" d = Some fa -> truthy fa = true ->
  handle_response self (VDict d) w = (Ok (Return fa), w).
Proof.
  intros Hd Ht. unfold handle_response, mbind, M_bind, lift, get, get_default.
  rewrite Hd; simpl. by rewrite Ht.
Qed.



Lemma loop_step self n w :
  loop self (S n) w
  = match iteration self w with
    | (Ok (Return v), w') => (Ok v, w')
    | (Ok Next, w') => loop self n w'
    | (Raise e, w') => (Raise e, w')
    end.
Proof.
  change (loop self (S n) w)
    with (mbind (fun r => match r with
                          | Return v => mret v
                          | Next => loop self n
                          end) (iteration self) w).
  unfold mbind, M_bind. by destruct (iteration self w) as [[[v|]|e] w'].
Qed.

Lemma loop_after_passes self k n : forall w w1,
  passes self k w = Some w1 -> loop self (k + n) w = loop self n w1.
Proof.
  induction k as [|k IH]; intros w w1 Hp.
  - simpl in Hp. by injection Hp as <-.
  - change (S k + n)%nat with (S (k + n)). rewrite loop_step. simpl in Hp.
    destruct (iteration self w) as [[[v|]|e] w2]; try discriminate.
    by apply IH.
Qed.

(** C4: a pass whose parsed response carries a non-empty string as
    [Final Answer] ends the loop at once with that string, in the store
    in which the response arrived, whatever the registry holds (nothing
    is dispatched); a call whose earlier passes fell through returns
    that string to its caller. *)
Theorem final_answer_terminates self n w raw d s :
  create (clock w) "gpt-4o" (transcript self w) (response_format self) = Ok raw ->
  json_loads raw = Ok (VDict d) ->
  dict_get "Final Answer" d = Some (VStr s) ->
  s <> "" ->
  loop self (S n) w = (Ok (VStr s), answered self raw w)
  /\ forall user_input max_retries w0 k,
       passes self k (asked self user_input w0) = Some w ->
       Z.to_nat (default 100 max_retries) = (k + S n)%nat ->
       call self user_input max_retries w0 = (Ok (VStr s), answered self raw w).
Proof.
  intros Hc Hl Hd Hs.
  assert (loop self (S n) w = (Ok (VStr s), answered self raw w)) as Hloop.
  { rewrite loop_step, (iteration_parsed _ _ _ _ Hc Hl).
    rewrite (handle_final _ _ (VStr s)); [done | done |].
    simpl. apply negb_true_iff, String.eqb_neq. done. }
  split; [done |].
  intros user_input max_retries w0 k Hp Hk.
  unfold call, mbind, M_bind. rewrite append_run.
  change default_max_retries with 100. rewrite Hk.
  by rewrite (loop_after_passes _ _ _ _ _ Hp).
Qed.

Lemma passes_loop self n : forall w w',
  passes self n w = Some w' -> loop self n w = (Ok sentinel, w').
Proof.
  induction n as [|n IH]; intros w w' Hp.
  - simpl in Hp. by injection Hp as <-.
  - rewrite loop_step. simpl in Hp.
    destruct (iteration self w) as [[[v|]|e] w1]; try discriminate.
    by apply IH.
Qed.

(** C5: when every one of the [max_retries] passes (100 when the
    argument is left out) completes without returning, the call returns
    the sentinel string as an ordinary result. *)
Theorem retries_exhausted self user_input max_retries w w' :
  passes self (Z.to_nat (default 100 max_retries))
    (appended (conversation self) [message "user" user_input] w) = Some w' ->
  call self user_input max_retries w
  = (Ok (VStr "Error: Maximum retries reached."), w').
Proof.
  intros Hp. unfold call, mbind, M_bind. rewrite append_run.
  by apply passes_loop.
Qed.

(** C10: two parsed responses that agree on [Final Answer] and on
    [Action Input] are handled alike from the same store, whatever
    their other fields hold: same branch, same result, same store. *)
Theorem action_field_is_ignored self d1 d2 w :
  dict_get "Final Answer" d1 = dict_get "Final Answer" d2 ->
  dict_get "Action Input" d1 = dict_get "Action Input" d2 ->
  handle_response self (VDict d1) w = handle_response self (VDict d2) w.
Proof.
  intros Hf Ha. unfold handle_response, get, get_default, lift, mbind, M_bind.
  by rewrite Hf, Ha.
Qed.

Lemma handle_dispatch self d ai kwargs w :
  truthy (default VNone (dict_get "Final Answer" d)) = false ->
  dict_get "Action Input" d = Some (VDict ai) ->
  ai <> [] ->
  unpack (default (VDict []) (dict_get "arguments" ai)) = Ok kwargs ->
  handle_response self (VDict d) w
  = match call_function self (default VNone (dict_get "name" ai)) kwargs w with
    | (Ok r, w') =>
        (Ok Next,
         appended (conversation self)
           [function_message (default VNone (dict_get "name" ai))
              (json_dumps None r)] w')
    | (Raise e, w') => (Raise e, w')
    end.
Proof.
  intros Hf Ha Hne Hu.
  unfold handle_response, get, get_default, lift, mbind, M_bind.
  rewrite Hf, Ha; simpl.
  destruct ai as [|p ai']; [done |]. rewrite Hu.
  by destruct (call_function _ _ _ _) as [[r|e] w'].
Qed.

Lemma res_map_raise_class {A B} (f : A -> res B) (l : list A) (e e0 : exn) :
  (forall x e1, f x = Raise e1 -> e1 = e0) ->
  res_map f l = Raise e -> e = e0.
Proof.
  intros Hf. induction l as [|x l IH]; simpl; [discriminate |].
  destruct (f x) as [y|e1] eqn:Hx; simpl.
  - destruct (res_map f l) as [ys|e2]; simpl; [discriminate |].
    intros [= <-]. by apply IH.
  - intros [= <-]. by eapply Hf.
Qed.

Lemma bind_arguments_error sig kwargs e :
  bind_arguments sig kwargs = Raise e -> e = TypeError.
Proof.
  unfold bind_arguments.
  destruct (match List.filter _ kwargs with [] => true | _ => _ end);
    [| by intros [= <-]].
  apply res_map_raise_class. intros q e0.
  by destruct (param_kind q), (dict_get (param_name q) kwargs),
       (param_default q); intros [=].
Qed.

Lemma unpack_plain kwargs :
  "self" ∉ keys kwargs -> "function_name" ∉ keys kwargs ->
  unpack (VDict kwargs) = Ok kwargs.
Proof.
  intros Hs Hn. unfold unpack.
  assert (existsb (fun k => String.eqb k "self" || String.eqb k "function_name")
            (keys kwargs) = false) as ->; [| done].
  induction kwargs as [|[k v] kwargs IH]; simpl in *; [done |].
  apply not_elem_of_cons in Hs as [Hs Hs'].
  apply not_elem_of_cons in Hn as [Hn Hn'].
  rewrite (IH Hs' Hn'), orb_false_r. apply orb_false_iff.
  split; apply String.eqb_neq; congruence.
Qed.

(** C1 (as the code has it): in a dispatch pass whose keyword arguments
    can be unpacked (the [arguments] field is absent or is an object
    without the keys [self] and [function_name]), a name that is not in
    the registry yields the error payload, which is appended as the
    message of role [function] under that name, and the loop goes on; an
    exception raised by the body of a registered function is not caught
    and ends the pass and the loop with that exception, in the store
    the function left, and so does the [TypeError] of a call whose
    arguments do not fit the signature: no function message is
    appended. *)
Theorem dispatch_errors self n w raw d ai k kwargs :
  create (clock w) "gpt-4o" (transcript self w) (response_format self) = Ok raw ->
  json_loads raw = Ok (VDict d) ->
  truthy (default VNone (dict_get "Final Answer" d)) = false ->
  dict_get "Action Input" d = Some (VDict ai) ->
  dict_get "name" ai = Some (VStr k) ->
  default (VDict []) (dict_get "arguments" ai) = VDict kwargs ->
  "self" ∉ keys kwargs ->
  "function_name" ∉ keys kwargs ->
  (dict_get k (functions self) = None ->
   loop self (S n) w
   = loop self n
       (appended (conversation self)
          [VDict [("role", VStr "assistant"); ("content", VStr raw)];
           VDict [("role", VStr "function");
                  ("name", VStr k);
                  ("content",
                   VStr (json_dumps None
                           (VDict [("error",
                                    VStr ("Unknown function '" +:+ k +:+ "'"))])))]]
          (tick w)))
  /\ (forall f args e w',
        dict_get k (functions self) = Some f ->
        bind_arguments (signature f) kwargs = Ok args ->
        body f args
          (appended (conversation self)
             [VDict [("role", VStr "assistant"); ("content", VStr raw)]] (tick w))
        = (Raise e, w') ->
        iteration self w = (Raise e, w')
        /\ loop self (S n) w = (Raise e, w'))
  /\ (forall f e,
        dict_get k (functions self) = Some f ->
        bind_arguments (signature f) kwargs = Raise e ->
        e = TypeError
        /\ loop self (S n) w
           = (Raise TypeError,
              appended (conversation self)
                [VDict [("role", VStr "assistant"); ("content", VStr raw)]]
                (tick w))).
Proof.
  intros Hc Hl Hf Ha Hname Hargs Hs Hn.
  assert (ai <> []) as Hne by (intros ->; discriminate).
  assert (unpack (default (VDict []) (dict_get "arguments" ai)) = Ok kwargs) as Hu.
  { rewrite Hargs. by apply unpack_plain. }
  pose proof (handle_dispatch self d ai kwargs (answered self raw w) Hf Ha Hne Hu)
    as Hd.
  rewrite Hname in Hd. simpl in Hd. unfold call_function in Hd. simpl in Hd.
  split; [| split].
  - intros Hlk. rewrite Hlk in Hd.
    rewrite loop_step, (iteration_parsed _ _ _ _ Hc Hl), Hd.
    unfold mret, M_ret, answered. by rewrite appended_twice.
  - intros f args e w' Hlk Hbind Hbody. rewrite Hlk in Hd.
    change (appended (conversation self)
              [VDict [("role", VStr "assistant"); ("content", VStr raw)]] (tick w))
      with (answered self raw w) in Hbody.
    unfold apply, lift, mbind, M_bind in Hd. rewrite Hbind, Hbody in Hd.
    rewrite loop_step, (iteration_parsed _ _ _ _ Hc Hl), Hd. by split.
  - intros f e Hlk Hbind. rewrite Hlk in Hd.
    unfold apply, lift, mbind, M_bind in Hd. rewrite Hbind in Hd.
    assert (e = TypeError) as -> by (by eapply bind_arguments_error).
    split; [done |].
    by rewrite loop_step, (iteration_parsed _ _ _ _ Hc Hl), Hd.
Qed.

Lemma apply_preserves ref f kwargs w r w' :
  preserves ref f -> apply f kwargs w = (r, w') ->
  heap w' !! ref = heap w !! ref.
Proof.
  intros Hp. unfold apply, lift, mbind, M_bind.
  destruct (bind_arguments _ _) as [args|e].
  - intros H. specialize (Hp args w). rewrite H in Hp. exact Hp.
  - by intros [= _ <-].
Qed.

Lemma call_function_preserves self function_name kwargs w r w' :
  (forall k f, dict_get k (functions self) = Some f ->
               preserves (conversation self) f) ->
  call_function self function_name kwargs w = (r, w') ->
  heap w' !! conversation self = heap w !! conversation self.
Proof.
  intros Hp. unfold call_function.
  destruct (key_text function_name) as [shown|]; [| by intros [= _ <-]].
  destruct (lookup_key _ _) as [f|] eqn:Hlk; [| by intros [= _ <-]].
  destruct function_name; try discriminate. simpl in Hlk.
  apply apply_preserves. by eapply Hp.
Qed.

Lemma appended_after ref msgs msgs' w w' :
  heap w' !! ref = heap (appended ref msgs w) !! ref ->
  default [] (heap (appended ref msgs' w') !! ref)
  = default [] (heap w !! ref) ++ msgs ++ msgs'.
Proof.
  intros H. unfold appended in *; simpl in *.
  rewrite lookup_insert_eq in *. rewrite H. simpl. by rewrite app_assoc.
Qed.

(** C6 (as the code has it): a completed pass that returns adds exactly
    the assistant message to the transcript; a completed pass that
    falls through adds exactly two messages, the assistant message and
    then either a function message or the corrective message.  Earlier
    entries stay as they are.  The registered functions are assumed not
    to touch the transcript themselves. *)
Theorem transcript_growth self w r w' :
  (forall k f, dict_get k (functions self) = Some f ->
               preserves (conversation self) f) ->
  iteration self w = (Ok r, w') ->
  exists raw,
    match r with
    | Return _ =>
        transcript self w' = transcript self w ++ [message "assistant" (VStr raw)]
    | Next =>
        exists m,
          transcript self w'
          = transcript self w ++ [message "assistant" (VStr raw); m]
          /\ (m = corrective_message
              \/ exists function_name content,
                   m = function_message function_name content)
    end.
Proof.
  intros Hp. unfold iteration, request, mbind, M_bind.
  destruct (create _ _ _ _) as [raw|e]; [| discriminate].
  rewrite append_run. unfold lift.
  destruct (json_loads raw) as [so|e]; [| discriminate].
  fold (answered self raw w). intros H. exists raw.
  unfold handle_response, get, get_default, lift, mbind, M_bind in H.
  destruct so as [| | | | | |d]; try discriminate.
  destruct (truthy (default VNone (dict_get "Final Answer" d))).
  { injection H as <- <-. exact (transcript_appended self _ (tick w)). }
  destruct (truthy (default VNone (dict_get "Action Input" d))).
  2:{ rewrite append_run in H. injection H as <- <-.
      exists corrective_message. split; [| by left].
      unfold answered. rewrite appended_twice.
      exact (transcript_appended self _ (tick w)). }
  destruct (default VNone (dict_get "Action Input" d)) as [| | | | | |ai];
    try discriminate.
  destruct (unpack _) as [kwargs|e]; [| discriminate].
  destruct (call_function _ _ _ _) as [[res|e] w1] eqn:Hcf; [| discriminate].
  rewrite append_run in H. injection H as <- <-.
  eexists. split; [| right; by eexists _, _].
  apply call_function_preserves in Hcf; [| done].
  unfold transcript. unfold answered in Hcf.
  by rewrite (appended_after _ _ _ _ _ Hcf).
Qed.

Lemma appended_with_list ref l msgs w :
  appended ref msgs (with_list ref l w) = with_list ref (l ++ msgs) w.
Proof.
  unfold appended, with_list; simpl.
  by rewrite lookup_insert_eq, insert_insert_eq.
Qed.

Lemma answered_with_list self raw w :
  answered self raw w
  = with_list (conversation self)
      (transcript self w ++ [message "assistant" (VStr raw)]) (tick w).
Proof. reflexivity. Qed.

(** The handling of a parsed response does not look at the transcript:
    started with two different transcripts it ends the same way and
    appends the same messages to each, when the registered functions
    are independent of the transcript. *)
Lemma handle_response_modulo_transcript self so l1 l2 w :
  (forall k f, dict_get k (functions self) = Some f ->
               independent (conversation self) f) ->
  exists r added w',
    handle_response self so (with_list (conversation self) l1 w)
    = (r, with_list (conversation self) (l1 ++ added) w')
    /\ handle_response self so (with_list (conversation self) l2 w)
       = (r, with_list (conversation self) (l2 ++ added) w').
Proof.
  intros Hind.
  unfold handle_response, get, get_default, lift, mbind, M_bind.
  destruct so as [| | | | | |d];
    try (exists (Raise AttributeError), [], w; by rewrite !app_nil_r).
  destruct (truthy (default VNone (dict_get "Final Answer" d))).
  { eexists _, [], w. by rewrite !app_nil_r. }
  destruct (truthy (default VNone (dict_get "Action Input" d))).
  2:{ rewrite !append_run, !appended_with_list. by eexists _, _, w. }
  destruct (default VNone (dict_get "Action Input" d)) as [| | | | | |ai];
    try (exists (Raise AttributeError), [], w; by rewrite !app_nil_r).
  destruct (unpack _) as [kwargs|e];
    [| exists (Raise e), [], w; by rewrite !app_nil_r].
  unfold call_function.
  destruct (key_text _) as [shown|];
    [| exists (Raise TypeError), [], w; by rewrite !app_nil_r].
  destruct (lookup_key _ _) as [f|] eqn:Hlk.
  2:{ unfold mret, M_ret. rewrite !append_run, !appended_with_list.
      by eexists _, _, w. }
  assert (independent (conversation self) f) as Hf.
  { destruct (default VNone (dict_get "name" ai)); try discriminate.
    by eapply Hind. }
  unfold apply, lift, mbind, M_bind.
  destruct (bind_arguments _ _) as [args|e];
    [| exists (Raise e), [], w; by rewrite !app_nil_r].
  rewrite !Hf. destruct (body f args w) as [[v|e] w0]; cbn [fst snd].
  - rewrite !append_run, !appended_with_list. unfold mret, M_ret.
    by eexists _, _, w0.
  - exists (Raise e), [], w0. by rewrite !app_nil_r.
Qed.

(** Two passes that receive different texts whose parsed records agree
    on [Final Answer] and [Action Input] end the same way, and after
    their assistant messages they append the same messages. *)
Lemma action_field_is_ignored_in_pass self d1 d2 raw1 raw2 w :
  (forall k f, dict_get k (functions self) = Some f ->
               independent (conversation self) f) ->
  dict_get "Final Answer" d1 = dict_get "Final Answer" d2 ->
  dict_get "Action Input" d1 = dict_get "Action Input" d2 ->
  exists r added w1 w2,
    handle_response self (VDict d1) (answered self raw1 w) = (r, w1)
    /\ handle_response self (VDict d2) (answered self raw2 w) = (r, w2)
    /\ transcript self w1
       = transcript self w ++ message "assistant" (VStr raw1) :: added
    /\ transcript self w2
       = transcript self w ++ message "assistant" (VStr raw2) :: added.
Proof.
  intros Hind Hf Ha.
  assert (handle_response self (VDict d1) (answered self raw1 w)
          = handle_response self (VDict d2) (answered self raw1 w)) as ->.
  { unfold handle_response, get, get_default, lift, mbind, M_bind.
    by rewrite Hf, Ha. }
  rewrite !answered_with_list.
  destruct (handle_response_modulo_transcript self (VDict d2)
              (transcript self w ++ [message "assistant" (VStr raw1)])
              (transcript self w ++ [message "assistant" (VStr raw2)])
              (tick w) Hind) as (r & added & w' & H1 & H2).
  rewrite H1, H2. eexists r, added, _, _.
  split; [reflexivity |]. split; [reflexivity |].
  unfold transcript, with_list; simpl.
  rewrite !lookup_insert_eq; simpl. by rewrite <- !app_assoc.
Qed.

End loop_facts.

(** ** The schema mapper and the response-schema builder *)

Section schema_facts.
Context `{RT : Runtime}.
Import schemas props.

Lemma list_items_mapped t rest s :
  get_schema_for_type t = Ok s ->
  get_schema_for_type (AList (t :: rest))
  = Ok [("type", VStr "array"); ("items", VDict s)].
Proof. intros H. simpl. by rewrite H. Qed.

Lemma list_default_items :
  get_schema_for_type (AList [])
  = Ok [("type", VStr "array"); ("items", VDict [("type", VStr "string")])].
Proof. reflexivity. Qed.

(** C7: the plain class [list], a list annotation that names no element
    type, is mapped through the table of basic types: its schema is
    [{"type": "array"}] and has no [items], whereas [List] without a
    parameter gets string items. *)
Theorem bare_list_has_no_items :
  get_schema_for_type (AClass c_list) = Ok [("type", VStr "array")]
  /\ dict_get "items" [("type", VStr "array")] = None
  /\ get_schema_for_type (AList [])
     = Ok [("type", VStr "array"); ("items", VDict [("type", VStr "string")])].
Proof. repeat split; reflexivity. Qed.

Lemma none_is_unsupported : get_schema_for_type ANone = Raise ValueError.
Proof. reflexivity. Qed.

(** C8: [Dict[K, V]] is mapped to a closed object schema with the two
    properties [property1], the schema of [K], and [property2], the
    schema of [V], both required. *)
Theorem mapping_two_properties K V key_schema value_schema :
  get_schema_for_type K = Ok key_schema ->
  get_schema_for_type V = Ok value_schema ->
  get_schema_for_type (ADict [K; V])
  = Ok [("type", VStr "object");
        ("properties", VDict [("property1", VDict key_schema);
                              ("property2", VDict value_schema)]);
        ("required", VList [VStr "property1"; VStr "property2"]);
        ("additionalProperties", VBool false)].
Proof.
  intros HK HV.
  assert ((match K with
           | ANone => Ok string_schema
           | _ => get_schema_for_type K
           end) = Ok key_schema) as HK'.
  { destruct K; try exact HK. by rewrite none_is_unsupported in HK. }
  assert ((match V with
           | ANone => Ok string_schema
           | _ => get_schema_for_type V
           end) = Ok value_schema) as HV'.
  { destruct V; try exact HV. by rewrite none_is_unsupported in HV. }
  change (get_schema_for_type (ADict [K; V]))
    with (res_bind
            (match K with
             | ANone => Ok string_schema
             | _ => get_schema_for_type K
             end)
            (fun ks =>
               res_bind
                 (match V with
                  | ANone => Ok string_schema
                  | _ => get_schema_for_type V
                  end)
                 (fun vs => Ok (mapping_schema ks vs)))).
  by rewrite HK', HV'.
Qed.

Lemma branch_of_fields tool n d p :
  tool_fields tool = Some (n, d, p) ->
  exists b,
    branch tool = Ok b /\ branch_name b = Some n /\ branch_arguments b = Some p.
Proof.
  unfold tool_fields, branch. intros H.
  destruct tool as [| | | | | |t]; try discriminate.
  unfold getitem at 1. simpl.
  destruct (dict_get "function" t) as [[| | | | | |f]|]; try discriminate.
  simpl. unfold getitem.
  destruct (dict_get "name" f) as [n'|]; [| discriminate].
  destruct (dict_get "description" f) as [d'|]; [| discriminate].
  destruct (dict_get "parameters" f) as [p'|]; [| discriminate].
  injection H as -> -> ->. simpl. by eexists.
Qed.

Lemma branches_of_tools tools :
  forallb is_tool_definition tools = true ->
  exists branches,
    res_map branch tools = Ok branches
    /\ Forall2
         (fun tool b =>
            exists n d p,
              tool_fields tool = Some (n, d, p)
              /\ branch_name b = Some n /\ branch_arguments b = Some p)
         tools branches.
Proof.
  induction tools as [|tool tools IH]; simpl; intros H.
  - exists []. by split.
  - apply andb_true_iff in H as [Ht Hts].
    destruct (IH Hts) as (bs & Hbs & Hall).
    unfold is_tool_definition in Ht.
    destruct (tool_fields tool) as [[[n d] p]|] eqn:Hf; [| discriminate].
    destruct (branch_of_fields _ _ _ _ Hf) as (b & Hb & Hn & Hp).
    exists (b :: bs). rewrite Hb, Hbs. simpl. split; [done |].
    constructor; [| done]. by exists n, d, p.
Qed.

(** C9: from the text of a sequence of tool definitions the builder
    yields one schema, the same at every build, whose [Action Input]
    branches are the branches of the tools, in the order of the tools,
    followed by the null branch. *)
Theorem branches_follow_tools tool_definitions_schema tools :
  json_loads tool_definitions_schema = Ok (VList tools) ->
  forallb is_tool_definition tools = true ->
  exists schema branches,
    generate_response_schema tool_definitions_schema = Ok schema
    /\ (forall r, generate_response_schema tool_definitions_schema = r ->
                  r = Ok schema)
    /\ action_input_branches schema = Some (branches ++ [VDict [("type", VStr "null")]])
    /\ Forall2
         (fun tool b =>
            exists n d p,
              tool_fields tool = Some (n, d, p)
              /\ branch_name b = Some n /\ branch_arguments b = Some p)
         tools branches.
Proof.
  intros Hl Ht.
  destruct (branches_of_tools tools Ht) as (bs & Hbs & Hall).
  unfold generate_response_schema, build_action_input_schema.
  rewrite Hl. simpl. rewrite Hbs. simpl.
  eexists _, bs. split; [reflexivity |].
  split; [by intros r <- |]. by split.
Qed.

(** What the extractor emits is a tool definition in the above sense,
    under the name of its registry entry. *)
Lemma tool_definition_fields name func tool :
  tool_definition name func = Ok tool ->
  exists d p, tool_fields tool = Some (VStr name, d, p).
Proof.
  unfold tool_definition. intros H.
  destruct (parameters_schema _ _) as [ps|e]; [| discriminate].
  simpl in H. injection H as <-. by eexists _, _.
Qed.

End schema_facts.

(** ** Recipient registration *)

Section dict_facts.
Context {A : Type}.

Lemma dict_get_set (a b : string) (v : A) (d : dict A) :
  dict_get a (dict_set b v d) = if String.eqb a b then Some v else dict_get a d.
Proof.
  induction d as [|[k0 v0] d IH]; simpl; [done |].
  destruct (String.eqb_spec b k0) as [->|Hb]; simpl.
  - by destruct (String.eqb_spec a k0).
  - rewrite IH. destruct (String.eqb_spec a k0) as [->|Ha]; [| done].
    destruct (String.eqb_spec k0 b) as [->|]; [done | done].
Qed.

Lemma dict_set_fresh (k : string) (v : A) (d : dict A) :
  dict_get k d = None -> dict_set k v d = d ++ [(k, v)].
Proof.
  induction d as [|[k0 v0] d IH]; simpl; [done |].
  destruct (String.eqb k k0); [done |]. intros H. by rewrite IH.
Qed.

Lemma dict_get_app_fresh (k : string) (d d' : dict A) :
  dict_get k d = None -> dict_get k (d ++ d') = dict_get k d'.
Proof.
  induction d as [|[k0 v0] d IH]; simpl; [done |].
  destruct (String.eqb k k0); [done | exact IH].
Qed.

Context {X : Type} (key : X -> string) (val : X -> A).
Context (step : dict A -> X -> dict A).
Hypothesis step_sets : forall acc y, step acc y = dict_set (key y) (val y) acc.

Lemma fold_set_other (l : list X) : forall init k,
  k ∉ map key l -> dict_get k (fold_left step l init) = dict_get k init.
Proof.
  induction l as [|y l IH]; simpl; intros init k Hk; [done |].
  apply not_elem_of_cons in Hk as [Hne Hk].
  rewrite IH, step_sets, dict_get_set; [| done].
  by destruct (String.eqb_spec k (key y)).
Qed.



End dict_facts.

Section registration_facts.
Context `{RT : Runtime}.
Import schemas agent props.

Lemma distinct_NoDup (l : list string) : NoDup l -> distinct l = true.
Proof.
  induction 1 as [|x l Hx _ IH]; simpl; [done |].
  rewrite IH, andb_true_r. apply negb_true_iff, not_true_iff_false.
  intros Hex. apply existsb_exists in Hex as (y & Hy & Heq).
  apply String.eqb_eq in Heq as <-. by apply Hx, list_elem_of_In.
Qed.






End registration_facts.

(** ** The properties on the scenarios *)

Section examples.
Import schemas agent props scenario.

Example agent2_constructed : succeeded (new_agent2 [] empty).1 = true.
Proof. vm_compute. reflexivity. Qed.

Example worker_constructed : succeeded (new_worker [] empty).1 = true.
Proof. vm_compute. reflexivity. Qed.

Example agent1_constructed : succeeded (new_agent1 [] agent2_store).1 = true.
Proof. vm_compute. reflexivity. Qed.

(** The run of main.py ends with the answer of [agent1]; [agent2] has
    seen the forwarded message and its own function result. *)
Example main_run :
  let run := call (RT := demo.scripted main_script) (agent1 main_script)
               (VStr "Please ask Agent2 to say hello to Alice.") None
               agent1_store in
  run.1 = Ok (VStr "Agent2 says: Hello, Alice! This is Agent2.")
  /\ length (transcript (agent1 main_script) run.2) = 5%nat
  /\ length (transcript agent2 run.2) = 5%nat.
Proof. vm_compute. repeat split; reflexivity. Qed.


(** The theorem of C4 on the response with [Final Answer = "42"]. *)
Lemma final_answer_terminates_witness :
  let w := asked agent2 (VStr "6 times 7?") agent2_store in
  loop (RT := demo.scripted [answers_42]) agent2 100 w
  = (Ok (VStr "42"), answered agent2 answers_42 w)
  /\ call (RT := demo.scripted [answers_42]) agent2 (VStr "6 times 7?") None
       agent2_store
     = (Ok (VStr "42"), answered agent2 answers_42 w).
Proof.
  intros w.
  assert (loop (RT := demo.scripted [answers_42]) agent2 100 w
          = (Ok (VStr "42"), answered agent2 answers_42 w)
          /\ forall user_input max_retries w0 k,
               passes (RT := demo.scripted [answers_42]) agent2 k
                 (asked agent2 user_input w0) = Some w ->
               Z.to_nat (default 100 max_retries) = (k + 100)%nat ->
               call (RT := demo.scripted [answers_42]) agent2 user_input
                 max_retries w0
               = (Ok (VStr "42"), answered agent2 answers_42 w)) as [Hloop Hcall].
  { apply (final_answer_terminates (RT := demo.scripted [answers_42]) agent2 99
             w answers_42 (fields "NONE" VNone (VStr "42")) "42").
    - vm_compute. reflexivity.
    - vm_compute. reflexivity.
    - reflexivity.
    - discriminate. }
  split; [exact Hloop |].
  apply (Hcall (VStr "6 times 7?") None agent2_store 0%nat); reflexivity.
Defined.

Example invoke_returns_42 :
  (call (RT := demo.scripted [answers_42]) agent2 (VStr "6 times 7?") None
     agent2_store).1 = Ok (VStr "42").
Proof. vm_compute. reflexivity. Qed.

(** The theorem of C5 on a model that never answers, with the default
    bound. *)
Lemma retries_exhausted_witness :
  call (RT := demo.scripted stubborn) agent2 (VStr "hello?") None agent2_store
  = (Ok (VStr "Error: Maximum retries reached."), exhausted).
Proof.
  apply (retries_exhausted (RT := demo.scripted stubborn) agent2
           (VStr "hello?") None agent2_store exhausted).
  vm_compute. reflexivity.
Defined.

Example exhausted_transcript :
  length (transcript agent2 exhausted) = 202%nat.
Proof. vm_compute. reflexivity. Qed.

(** The theorem of C10 on two responses that differ in [Action] only. *)
Lemma action_field_is_ignored_witness :
  handle_response (RT := quiet) agent2 (VDict says_call) agent2_store
  = handle_response (RT := quiet) agent2 (VDict says_none) agent2_store.
Proof.
  apply (action_field_is_ignored (RT := quiet) agent2 says_call says_none
           agent2_store); reflexivity.
Defined.

(** C1 fails on [worker]: the registered function [failing] raises, and
    the call ends with that exception; the transcript holds the user
    and the assistant message and no function message. *)
Lemma raising_function_ends_the_call :
  let run := call (RT := demo.scripted [calls_failing; answers_42]) worker
               (VStr "go") None worker_store in
  run.1 = Raise (Exception "boom")
  /\ transcript worker run.2
     = transcript worker worker_store
         ++ [message "user" (VStr "go");
             message "assistant" (VStr calls_failing)].
Proof. vm_compute. split; reflexivity. Qed.

(** The theorem of C1 on an unknown name sent to [agent2] and on the
    raising function of [worker]. *)
Lemma dispatch_errors_witness :
  (let w := asked agent2 (VStr "go") agent2_store in
   loop (RT := demo.scripted [calls_unknown]) agent2 1 w
   = loop (RT := demo.scripted [calls_unknown]) agent2 0
       (appended (conversation agent2)
          [VDict [("role", VStr "assistant"); ("content", VStr calls_unknown)];
           VDict [("role", VStr "function");
                  ("name", VStr "unknown_fn");
                  ("content",
                   VStr (demo.dumps None
                           (VDict [("error",
                                    VStr "Unknown function 'unknown_fn'")])))]]
          (tick w)))
  /\ (let w := asked worker (VStr "go") worker_store in
      iteration (RT := demo.scripted [calls_failing]) worker w
      = (Raise (Exception "boom"), answered worker calls_failing w)
      /\ loop (RT := demo.scripted [calls_failing]) worker 1 w
         = (Raise (Exception "boom"), answered worker calls_failing w)).
Proof.
  split.
  - refine (proj1 (dispatch_errors (RT := demo.scripted [calls_unknown]) agent2 0
                     (asked agent2 (VStr "go") agent2_store) calls_unknown
                     (fields "CALL_FUNCTION" (action "unknown_fn" []) VNone)
                     [("name", VStr "unknown_fn"); ("arguments", VDict [])]
                     "unknown_fn" [] _ _ _ _ _ _ _ _) _).
    + vm_compute. reflexivity.
    + vm_compute. reflexivity.
    + reflexivity.
    + reflexivity.
    + reflexivity.
    + reflexivity.
    + apply not_elem_of_nil.
    + apply not_elem_of_nil.
    + vm_compute. reflexivity.
  - refine (proj1 (proj2 (dispatch_errors (RT := demo.scripted [calls_failing])
                            worker 0
                            (asked worker (VStr "go") worker_store) calls_failing
                            (fields "CALL_FUNCTION" (action "failing" []) VNone)
                            [("name", VStr "failing"); ("arguments", VDict [])]
                            "failing" [] _ _ _ _ _ _ _ _))
              failing [] (Exception "boom") _ _ _ _).
    + vm_compute. reflexivity.
    + vm_compute. reflexivity.
    + reflexivity.
    + reflexivity.
    + reflexivity.
    + reflexivity.
    + apply not_elem_of_nil.
    + apply not_elem_of_nil.
    + reflexivity.
    + reflexivity.
    + reflexivity.
Defined.

(** C6 fails on a malformed response: nothing is dispatched, and the
    pass adds two entries, the assistant message and the corrective
    message. *)
Lemma malformed_pass_adds_two :
  let w := asked agent2 (VStr "hello?") agent2_store in
  let pass := iteration (RT := demo.scripted [malformed]) agent2 w in
  pass.1 = Ok Next
  /\ demo.loads malformed = Ok (VDict (fields "NONE" VNone VNone))
  /\ transcript agent2 pass.2
     = transcript agent2 w
         ++ [message "assistant" (VStr malformed); corrective_message]
  /\ length (transcript agent2 pass.2) = (length (transcript agent2 w) + 2)%nat
  /\ length (transcript agent2 pass.2) <> (length (transcript agent2 w) + 1)%nat.
Proof. vm_compute. repeat split; try reflexivity. discriminate. Qed.

Lemma say_hello_preserves ref : preserves ref say_hello.
Proof. intros args w. reflexivity. Qed.

Lemma say_hello_independent ref : independent ref say_hello.
Proof. intros args l w. reflexivity. Qed.

Lemma agent2_functions : functions agent2 = [("say_hello", say_hello)].
Proof. reflexivity. Qed.

(** The theorem of C6 on a pass of [agent2] that calls [say_hello]. *)
Lemma transcript_growth_witness :
  let w := asked agent2 (VStr "hi") agent2_store in
  let pass := iteration (RT := demo.scripted [calls_say_hello]) agent2 w in
  exists raw m,
    transcript agent2 pass.2
    = transcript agent2 w ++ [message "assistant" (VStr raw); m]
    /\ (m = corrective_message
        \/ exists function_name content,
             m = function_message function_name content).
Proof.
  intros w pass.
  assert (forall k f, dict_get k (functions agent2) = Some f ->
                      preserves (conversation agent2) f) as Hframe.
  { intros k f. rewrite agent2_functions. simpl.
    destruct (String.eqb k "say_hello"); [| discriminate].
    intros [= <-]. apply say_hello_preserves. }
  assert (pass = (Ok Next, pass.2)) as Hpass.
  { apply injective_projections; [vm_compute; reflexivity | reflexivity]. }
  exact (transcript_growth (RT := demo.scripted [calls_say_hello]) agent2 w
           Next pass.2 Hframe Hpass).
Defined.

(** The theorem of C8 on [Dict[str, List[int]]]. *)
Lemma mapping_two_properties_witness :
  get_schema_for_type (ADict [AClass c_str; AList [AClass c_int]])
  = Ok [("type", VStr "object");
        ("properties",
         VDict [("property1", VDict [("type", VStr "string")]);
                ("property2",
                 VDict [("type", VStr "array");
                        ("items", VDict [("type", VStr "integer")])])]);
        ("required", VList [VStr "property1"; VStr "property2"]);
        ("additionalProperties", VBool false)].
Proof.
  apply (mapping_two_properties (AClass c_str) (AList [AClass c_int])
           [("type", VStr "string")]
           [("type", VStr "array"); ("items", VDict [("type", VStr "integer")])]);
    reflexivity.
Defined.

(** The theorem of C9 on the tool definitions of a registry with two
    functions. *)
Lemma branches_follow_tools_witness :
  exists schema branches,
    generate_response_schema (RT := quiet) two_tools_text = Ok schema
    /\ (forall r, generate_response_schema (RT := quiet) two_tools_text = r ->
                  r = Ok schema)
    /\ action_input_branches schema
       = Some (branches ++ [VDict [("type", VStr "null")]])
    /\ Forall2
         (fun tool b =>
            exists n d p,
              tool_fields tool = Some (n, d, p)
              /\ branch_name b = Some n /\ branch_arguments b = Some p)
         two_tools branches.
Proof.
  apply (branches_follow_tools (RT := quiet) two_tools_text two_tools).
  - vm_compute. reflexivity.
  - vm_compute. reflexivity.
Defined.

Example two_tools_branch_names :
  match generate_response_schema (RT := quiet) two_tools_text with
  | Ok schema => option_map (map branch_name) (action_input_branches schema)
  | Raise _ => None
  end
  = Some [Some (VStr "say_hello"); Some (VStr "failing"); None].
Proof. vm_compute. reflexivity. Qed.



End examples.

(** ** More on the schema mapper *)

Section mapper_facts.
Import schemas props.

(** Induction on annotations, with the arguments of a generic covered
    by the induction hypothesis. *)
Lemma annotation_nested_ind (P : annotation -> Prop) :
  P ANone ->
  (forall c, P (AClass c)) ->
  (forall members, P (AEnum members)) ->
  (forall fields, Forall (fun f => P f.2) fields -> P (ATypedDict fields)) ->
  (forall args, Forall P args -> P (AUnion args)) ->
  (forall args, Forall P args -> P (AList args)) ->
  (forall args, Forall P args -> P (ADict args)) ->
  (forall hashable, P (AOther hashable)) ->
  forall a, P a.
Proof.
  intros HNone HClass HEnum HTyped HUnion HList HDict HOther.
  fix IH 1. intros [| c | members | fields | args | args | args | h].
  - exact HNone.
  - apply HClass.
  - apply HEnum.
  - apply HTyped. induction fields as [|[k t] fields IHf]; constructor;
      [apply IH | exact IHf].
  - apply HUnion. induction args as [|t args IHa]; constructor;
      [apply IH | exact IHa].
  - apply HList. induction args as [|t args IHa]; constructor;
      [apply IH | exact IHa].
  - apply HDict. induction args as [|t args IHa]; constructor;
      [apply IH | exact IHa].
  - apply HOther.
Qed.

Lemma typed_dict_unfold fields :
  get_schema_for_type (ATypedDict fields)
  = res_bind (typed_dict_properties fields [])
      (fun properties => Ok (object_schema properties (keys fields))).
Proof. reflexivity. Qed.

Lemma union_unfold args :
  get_schema_for_type (AUnion args)
  = res_bind (union_branches args)
      (fun branches => Ok [("anyOf", VList branches)]).
Proof. reflexivity. Qed.

Lemma dict_unfold k v :
  get_schema_for_type (ADict [k; v])
  = res_bind
      (match k with
       | ANone => Ok string_schema
       | _ => get_schema_for_type k
       end)
      (fun ks =>
         res_bind
           (match v with
            | ANone => Ok string_schema
            | _ => get_schema_for_type v
            end)
           (fun vs => Ok (mapping_schema ks vs))).
Proof. reflexivity. Qed.

Lemma typed_dict_properties_error fields :
  Forall (fun f : string * annotation =>
            forall e, get_schema_for_type f.2 = Raise e -> mapper_error f.2 e)
    fields ->
  forall acc e,
    typed_dict_properties fields acc = Raise e ->
    mapper_error (ATypedDict fields) e.
Proof.
  induction 1 as [|[k t] fields Ht _ IHf]; intros acc e; simpl;
    [discriminate |].
  destruct (get_schema_for_type t) as [s|e1] eqn:Hs; simpl.
  - intros H. destruct (IHf _ _ H) as [-> | [-> Hh]]; [by left | right].
    split; [done |]. simpl in *. by rewrite Hh, andb_false_r.
  - intros [= <-]. destruct (Ht _ Hs) as [-> | [-> Hh]]; [by left | right].
    split; [done |]. simpl in *. by rewrite Hh.
Qed.

Lemma union_branches_error args :
  Forall (fun t => forall e, get_schema_for_type t = Raise e -> mapper_error t e)
    args ->
  forall e, union_branches args = Raise e -> mapper_error (AUnion args) e.
Proof.
  induction 1 as [|t args Ht _ IHa]; intros e; simpl; [discriminate |].
  destruct (get_schema_for_type t) as [s|e1] eqn:Hs; simpl.
  - destruct (union_branches args) as [ss|e2]; simpl; [discriminate |].
    intros [= <-]. destruct (IHa _ eq_refl) as [-> | [-> Hh]]; [by left | right].
    split; [done |]. simpl in *. by rewrite Hh, andb_false_r.
  - intros [= <-]. destruct (Ht _ eq_refl) as [-> | [-> Hh]]; [by left | right].
    split; [done |]. simpl in *. by rewrite Hh.
Qed.

Lemma schema_error a : forall e,
  get_schema_for_type a = Raise e -> mapper_error a e.
Proof.
  induction a as [| c | members | fields IH | args IH | args IH | args IH | h]
    using annotation_nested_ind; intros e.
  - intros [= <-]. by left.
  - destruct c; simpl; intros H; try discriminate; injection H as <-; by left.
  - simpl. discriminate.
  - rewrite typed_dict_unfold.
    destruct (typed_dict_properties fields []) as [ps|e1] eqn:Hps; simpl;
      [discriminate |]. intros [= <-].
    by eapply typed_dict_properties_error.
  - rewrite union_unfold.
    destruct (union_branches args) as [ss|e1] eqn:Hss; simpl;
      [discriminate |]. intros [= <-]. by eapply union_branches_error.
  - destruct IH as [|t args Ht _]; simpl; [discriminate |].
    destruct (get_schema_for_type t) as [s|e1] eqn:Hs; simpl; [discriminate |].
    intros [= <-]. destruct (Ht _ eq_refl) as [-> | [-> Hh]]; [by left | right].
    split; [done |]. simpl. by rewrite Hh.
  - destruct IH as [|k args Hk IH]; [simpl; discriminate |].
    destruct IH as [|v args Hv IH]; [simpl; discriminate |].
    destruct IH as [|x args _ _]; [| simpl; discriminate].
    rewrite dict_unfold.
    assert (forall t e1,
              (forall e0, get_schema_for_type t = Raise e0 -> mapper_error t e0) ->
              (match t with
               | ANone => Ok string_schema
               | _ => get_schema_for_type t
               end) = Raise e1 -> mapper_error t e1) as Hside.
    { intros t e1 Ht H. destruct t; try (by apply Ht); discriminate. }
    destruct (match k with ANone => Ok string_schema | _ => get_schema_for_type k end)
      as [ks|e1] eqn:Hks; simpl.
    + destruct (match v with ANone => Ok string_schema | _ => get_schema_for_type v end)
        as [vs|e2] eqn:Hvs; simpl; [discriminate |].
      intros [= <-]. destruct (Hside v _ Hv Hvs) as [-> | [-> Hh]]; [by left | right].
      split; [done |]. simpl. by rewrite Hh, andb_false_r.
    + intros [= <-]. destruct (Hside k _ Hk Hks) as [-> | [-> Hh]]; [by left | right].
      split; [done |]. simpl. by rewrite Hh.
  - destruct h; simpl; intros [= <-]; [by left | by right].
Qed.

Lemma schema_error_class a e :
  get_schema_for_type a = Raise e -> e = ValueError \/ e = TypeError.
Proof. intros H. destruct (schema_error a e H) as [-> | [-> _]]; auto. Qed.

Lemma schema_has_no_title a s :
  get_schema_for_type a = Ok s ->
  dict_get "title" s = None /\ dict_get "description" s = None.
Proof.
  destruct a as [| c | members | fields | args | args | args | h].
  - discriminate.
  - destruct c; simpl; intros H; try discriminate; by injection H as <-.
  - simpl. by intros [= <-].
  - rewrite typed_dict_unfold.
    destruct (typed_dict_properties fields []) as [ps|e]; simpl;
      [| discriminate]. by intros [= <-].
  - rewrite union_unfold.
    destruct (union_branches args) as [ss|e]; simpl; [| discriminate].
    by intros [= <-].
  - destruct args as [|t args]; simpl; [by intros [= <-] |].
    destruct (get_schema_for_type t) as [s0|e]; simpl; [| discriminate].
    by intros [= <-].
  - destruct args as [|k [|v [|x args]]]; try (simpl; by intros [= <-]).
    rewrite dict_unfold.
    destruct (match k with ANone => Ok string_schema | _ => get_schema_for_type k end)
      as [ks|e]; simpl; [| discriminate].
    destruct (match v with ANone => Ok string_schema | _ => get_schema_for_type v end)
      as [vs|e]; simpl; [| discriminate].
    by intros [= <-].
  - destruct h; discriminate.
Qed.

(** X1: whatever the annotation, the mapper either yields a schema or
    raises [ValueError] or [TypeError], and [TypeError] only when some
    object in the annotation cannot be hashed: the table of basic types
    is searched by hashing. *)
Theorem mapper_exceptions a :
  ((exists s, get_schema_for_type a = Ok s)
   \/ get_schema_for_type a = Raise ValueError
   \/ get_schema_for_type a = Raise TypeError)
  /\ (hashable a = true -> get_schema_for_type a <> Raise TypeError)
  /\ get_schema_for_type (AOther false) = Raise TypeError.
Proof.
  split; [| split; [| reflexivity]].
  - destruct (get_schema_for_type a) as [s|e] eqn:H; [left; by exists s |].
    right. destruct (schema_error_class a e H) as [-> | ->]; [by left | by right].
  - intros Hh H. destruct (schema_error a _ H) as [| [_ Hf]]; [done |].
    congruence.
Qed.

Lemma union_branches_prefix before t after e :
  Forall (fun a => exists s, get_schema_for_type a = Ok s) before ->
  get_schema_for_type t = Raise e ->
  union_branches (before ++ t :: after) = Raise e.
Proof.
  intros Hbefore Ht.
  induction Hbefore as [|a before [s Hs] _ IH]; simpl.
  - by rewrite Ht.
  - rewrite Hs. simpl. by rewrite IH.
Qed.

(** X2: a [Union] is rejected with the exception of the first of its
    members that the mapper cannot handle; the members after it are
    not looked at. *)
Theorem union_with_unsupported_member before t after e :
  Forall (fun a => exists s, get_schema_for_type a = Ok s) before ->
  get_schema_for_type t = Raise e ->
  get_schema_for_type (AUnion (before ++ t :: after)) = Raise e.
Proof.
  intros Hbefore Ht. rewrite union_unfold.
  by rewrite (union_branches_prefix before t after e Hbefore Ht).
Qed.

Lemma union_branches_ok args : forall branches,
  union_branches args = Ok branches
  <-> exists ss,
        Forall2 (fun t s => get_schema_for_type t = Ok s) args ss
        /\ branches = map VDict ss.
Proof.
  induction args as [|t args IH]; intros branches; simpl.
  - split.
    + intros [= <-]. exists []. by split.
    + intros (ss & Hall & ->). by inversion Hall.
  - split.
    + destruct (get_schema_for_type t) as [s|e] eqn:Hs; simpl; [| discriminate].
      destruct (union_branches args) as [bs|e] eqn:Hbs; simpl; [| discriminate].
      intros [= <-]. destruct (proj1 (IH bs) eq_refl) as (ss & Hall & ->).
      exists (s :: ss). split; [by constructor | done].
    + intros (ss & Hall & ->). inversion Hall as [|t' s ts ss' Hs Hrest]; subst.
      rewrite Hs. simpl.
      rewrite (proj2 (IH (map VDict ss')) (ex_intro _ ss' (conj Hrest eq_refl))).
      done.
Qed.

(** X3: a [Union] is mapped exactly when all its members are, and then
    to an [anyOf] whose branches are the members' schemas in the order
    of the members. *)
Theorem union_schema_branches args s :
  get_schema_for_type (AUnion args) = Ok s
  <-> exists ss,
        Forall2 (fun t s' => get_schema_for_type t = Ok s') args ss
        /\ s = [("anyOf", VList (map VDict ss))].
Proof.
  rewrite union_unfold. split.
  - destruct (union_branches args) as [bs|e] eqn:Hbs; simpl; [| discriminate].
    intros [= <-]. destruct (proj1 (union_branches_ok args bs) Hbs)
      as (ss & Hall & ->). by exists ss.
  - intros (ss & Hall & ->).
    by rewrite (proj2 (union_branches_ok args (map VDict ss))
                  (ex_intro _ ss (conj Hall eq_refl))).
Qed.

Lemma typed_dict_properties_fresh fields : forall props acc,
  NoDup (keys fields) ->
  (forall k, k ∈ keys fields -> dict_get k acc = None) ->
  Forall2 (fun (f : string * annotation) (p : string * value) =>
             p.1 = f.1 /\ exists s, get_schema_for_type f.2 = Ok s /\ p.2 = VDict s)
    fields props ->
  typed_dict_properties fields acc = Ok (acc ++ props).
Proof.
  induction fields as [|[k t] fields IH]; intros props acc Hnd Hfresh Hall.
  - inversion Hall. simpl. by rewrite app_nil_r.
  - inversion Hall as [|f [pk pv] fs ps (Hk & s & Hs & Hv) Hrest]; subst.
    simpl in *. subst. rewrite Hs. simpl.
    apply NoDup_cons in Hnd as [Hk Hnd].
    rewrite dict_set_fresh by (apply Hfresh; left).
    rewrite (IH ps); [by rewrite <- app_assoc | done | | done].
    intros k' Hk'. rewrite dict_get_app_fresh by (apply Hfresh; by right).
    simpl. destruct (String.eqb_spec k' k) as [->|]; [done | done].
Qed.

(** X4: a [TypedDict] whose fields are all mapped yields a closed
    object schema: its properties are the fields' schemas under the
    field names, in declaration order, and every field is required. *)
Theorem typed_dict_schema fields props :
  NoDup (keys fields) ->
  Forall2 (fun (f : string * annotation) (p : string * value) =>
             p.1 = f.1 /\ exists s, get_schema_for_type f.2 = Ok s /\ p.2 = VDict s)
    fields props ->
  get_schema_for_type (ATypedDict fields)
  = Ok [("type", VStr "object");
        ("properties", VDict props);
        ("required", VList (map VStr (keys fields)));
        ("additionalProperties", VBool false)].
Proof.
  intros Hnd Hall. rewrite typed_dict_unfold.
  by rewrite (typed_dict_properties_fresh fields props [] Hnd).
Qed.

(** X5: whatever its parameters, a [Dict] annotation that is mapped
    yields the closed two-property object; with any number of
    parameters other than two (as for a bare [Dict]) both properties
    are strings. *)
Theorem dict_schema_shape args :
  (length args <> 2%nat ->
   get_schema_for_type (ADict args)
   = Ok [("type", VStr "object");
         ("properties", VDict [("property1", VDict [("type", VStr "string")]);
                               ("property2", VDict [("type", VStr "string")])]);
         ("required", VList [VStr "property1"; VStr "property2"]);
         ("additionalProperties", VBool false)])
  /\ (forall s,
        get_schema_for_type (ADict args) = Ok s ->
        exists key_schema value_schema,
          s = [("type", VStr "object");
               ("properties", VDict [("property1", VDict key_schema);
                                     ("property2", VDict value_schema)]);
               ("required", VList [VStr "property1"; VStr "property2"]);
               ("additionalProperties", VBool false)]).
Proof.
  destruct args as [|k [|v [|x args]]]; (split; [intros Hlen | intros s]);
    try (simpl in Hlen; lia); try reflexivity;
    try (simpl; intros [= <-]; by eexists _, _).
  rewrite dict_unfold.
  destruct (match k with ANone => Ok string_schema | _ => get_schema_for_type k end)
    as [ks|e]; simpl; [| discriminate].
  destruct (match v with ANone => Ok string_schema | _ => get_schema_for_type v end)
    as [vs|e]; simpl; [| discriminate].
  intros [= <-]. by eexists _, _.
Qed.

End mapper_facts.

(** ** More on extraction and on the response schema *)

Section extraction_facts.
Context `{RT : Runtime}.
Import schemas props.

Lemma res_map_ok {A B} (f : A -> res B) l : forall ys,
  res_map f l = Ok ys <-> Forall2 (fun x y => f x = Ok y) l ys.
Proof.
  induction l as [|x l IH]; intros ys; simpl.
  - split; [intros [= <-]; constructor | by inversion 1].
  - split.
    + destruct (f x) as [y|e] eqn:Hx; simpl; [| discriminate].
      destruct (res_map f l) as [ys'|e] eqn:Hl; simpl; [| discriminate].
      intros [= <-]. constructor; [done | by apply IH].
    + inversion 1 as [|x' y l' ys' Hx Hrest]; subst. rewrite Hx. simpl.
      by rewrite (proj2 (IH ys') Hrest).
Qed.

Lemma res_map_raise {A B} (f : A -> res B) l e :
  res_map f l = Raise e -> exists x, x ∈ l /\ f x = Raise e.
Proof.
  induction l as [|x l IH]; simpl; [discriminate |].
  destruct (f x) as [y|e1] eqn:Hx; simpl.
  - destruct (res_map f l) as [ys|e2]; simpl; [discriminate |].
    intros [= <-]. destruct (IH eq_refl) as (z & Hz & Hfz).
    exists z. split; [by right | done].
  - intros [= <-]. exists x. split; [by left | done].
Qed.

Lemma parameter_schema_value param s :
  get_schema_for_type (default (AClass c_str) (param_annotation param)) = Ok s ->
  parameter_schema param
  = Ok (s ++ [("title", VStr (capitalize (param_name param)));
              ("description", VStr ("Parameter for " +:+ param_name param))]).
Proof.
  intros H. unfold parameter_schema, mbind, res_mbind. rewrite H. simpl.
  destruct (schema_has_no_title _ _ H) as [Ht Hd].
  rewrite (dict_set_fresh "title" _ s Ht).
  rewrite dict_set_fresh; [by rewrite <- app_assoc |].
  by rewrite dict_get_app_fresh.
Qed.

(** X6: extraction leaves the mapped schema of a parameter as it is
    and appends the title (the capitalized name) and the description
    after it; a parameter without annotation is a string. *)
Theorem parameter_schema_appends param s :
  get_schema_for_type (default (AClass c_str) (param_annotation param)) = Ok s ->
  parameter_schema param
  = Ok (s ++ [("title", VStr (capitalize (param_name param)));
              ("description", VStr ("Parameter for " +:+ param_name param))])
  /\ (param_annotation param = None -> s = [("type", VStr "string")]).
Proof.
  intros H. split; [by apply parameter_schema_value |].
  intros Hnone. rewrite Hnone in H. simpl in H. by injection H as <-.
Qed.

Lemma parameter_schema_raise param e :
  parameter_schema param = Raise e ->
  get_schema_for_type (default (AClass c_str) (param_annotation param))
  = Raise e
  /\ (e = ValueError \/ e = TypeError).
Proof.
  unfold parameter_schema, mbind, res_mbind.
  destruct (get_schema_for_type _) as [s|e1] eqn:H; simpl; [discriminate |].
  intros [= <-]. split; [done |]. by eapply schema_error_class.
Qed.

Lemma parameters_schema_keys params : forall acc ps,
  parameters_schema params acc = Ok ps ->
  NoDup (map param_name params) ->
  (forall p, p ∈ params -> dict_get (param_name p) acc = None) ->
  keys ps = keys acc ++ map param_name params.
Proof.
  induction params as [|p params IH]; intros acc ps; simpl.
  - intros [= <-] _ _. by rewrite app_nil_r.
  - unfold mbind, res_mbind.
    destruct (parameter_schema p) as [s|e]; simpl; [| discriminate].
    intros Hps Hnd Hfresh. apply NoDup_cons in Hnd as [Hp Hnd].
    rewrite dict_set_fresh in Hps by (apply Hfresh; left).
    rewrite (IH _ _ Hps Hnd).
    + unfold keys. rewrite map_app. simpl. by rewrite <- app_assoc.
    + intros q Hq. rewrite dict_get_app_fresh by (apply Hfresh; by right).
      simpl. destruct (String.eqb_spec (param_name q) (param_name p)) as [Heq|];
        [| done].
      exfalso. apply Hp. rewrite <- Heq. apply list_elem_of_fmap. by exists q.
Qed.


Lemma parameters_schema_inv params : forall acc,
  match parameters_schema params acc with
  | Ok _ =>
      Forall (fun p => exists s,
                get_schema_for_type (default (AClass c_str) (param_annotation p))
                = Ok s) params
  | Raise e => e = ValueError \/ e = TypeError
  end.
Proof.
  induction params as [|p params IH]; intros acc; simpl; [constructor |].
  unfold mbind, res_mbind.
  destruct (parameter_schema p) as [s|e] eqn:Hp; simpl.
  - specialize (IH (dict_set (param_name p) (VDict s) acc)).
    destruct (parameters_schema params _) as [ps|e]; [| done].
    constructor; [| done].
    unfold parameter_schema, mbind, res_mbind in Hp.
    destruct (get_schema_for_type _) as [s0|e0]; [by exists s0 | discriminate].
  - by destruct (parameter_schema_raise p e Hp).
Qed.

Lemma tool_definition_parameters name func tool :
  NoDup (map param_name (signature func)) ->
  tool_definition name func = Ok tool ->
  tool_fields tool
  = Some (VStr name, VStr (description func),
          VDict (object_schema
                   (match parameters_schema (signature func) [] with
                    | Ok ps => ps
                    | Raise _ => []
                    end)
                   (map param_name (signature func))))
  /\ declared_parameters tool = Some (map param_name (signature func))
  /\ required_parameters tool
     = Some (VList (map VStr (map param_name (signature func)))).
Proof.
  intros Hnd. unfold tool_definition, mbind, res_mbind.
  destruct (parameters_schema (signature func) []) as [ps|e] eqn:Hps; simpl;
    [| discriminate].
  intros [= <-].
  assert (keys ps = map param_name (signature func)) as Hkeys.
  { by rewrite (parameters_schema_keys _ _ _ Hps Hnd). }
  unfold declared_parameters, required_parameters. simpl.
  by rewrite Hkeys.
Qed.

(** X7: for a registry whose functions have distinct parameter names,
    a successful extraction yields one tool definition per entry, in
    the order of the registry, named after the entry's key, and
    declaring every parameter of the function, each of them required. *)
Theorem tool_definitions_follow_registry functions tools :
  Forall (fun entry : string * pyfunc =>
            NoDup (map param_name (signature entry.2))) functions ->
  tool_definitions functions = Ok tools ->
  Forall2
    (fun (entry : string * pyfunc) tool =>
       (exists d p, tool_fields tool = Some (VStr entry.1, d, p))
       /\ declared_parameters tool
          = Some (map param_name (signature entry.2))
       /\ required_parameters tool
          = Some (VList (map VStr (map param_name (signature entry.2)))))
    functions tools.
Proof.
  intros Hnd Hok. unfold tool_definitions in Hok.
  apply res_map_ok in Hok.
  induction Hok as [|[name func] tool fs ts Htool _ IH]; [constructor |].
  apply Forall_cons in Hnd as [Hf Hnd].
  constructor; [| by apply IH].
  destruct (tool_definition_parameters name func tool Hf Htool) as (H1 & H2 & H3).
  split; [by eexists _, _ | by split].
Qed.

Lemma tool_definition_inv name func :
  match tool_definition name func with
  | Ok _ =>
      Forall (fun p => exists s,
                get_schema_for_type (default (AClass c_str) (param_annotation p))
                = Ok s) (signature func)
  | Raise e => e = ValueError \/ e = TypeError
  end.
Proof.
  unfold tool_definition, mbind, res_mbind.
  pose proof (parameters_schema_inv (signature func) []) as H.
  by destruct (parameters_schema (signature func) []).
Qed.

Lemma extraction_outcome functions :
  match extract_function_schema functions with
  | Ok _ =>
      Forall (fun entry : string * pyfunc =>
                Forall (fun p => exists s,
                          get_schema_for_type
                            (default (AClass c_str) (param_annotation p)) = Ok s)
                  (signature entry.2)) functions
  | Raise e => e = ValueError \/ e = TypeError
  end.
Proof.
  unfold extract_function_schema, tool_definitions, mbind, res_mbind.
  destruct (res_map _ functions) as [tools|e] eqn:Hmap; simpl.
  - apply res_map_ok in Hmap.
    induction Hmap as [|[name func] tool fs ts Htool _ IH]; constructor; [| done].
    pose proof (tool_definition_inv name func) as H. simpl in *.
    by rewrite Htool in H.
  - apply res_map_raise in Hmap as ([name func] & _ & Hraise).
    pose proof (tool_definition_inv name func) as H. by rewrite Hraise in H.
Qed.


Lemma lstrip_spaces d :
  Forall (fun c => is_space c = true) (list_ascii_of_string d) ->
  lstrip d = EmptyString.
Proof.
  unfold lstrip. induction 1 as [|c l Hc _ IH]; simpl; [done |].
  by rewrite Hc.
Qed.

(** X9: a docstring made of white space only gives an empty
    description, not the placeholder; the placeholder stands for a
    missing or empty docstring. *)
Theorem blank_docstring_description func d :
  doc func = Some d ->
  d <> EmptyString ->
  Forall (fun c => is_space c = true) (list_ascii_of_string d) ->
  description func = EmptyString.
Proof.
  intros Hdoc Hne Hsp. unfold description. rewrite Hdoc.
  destruct (String.eqb_spec d "") as [->|_]; [done |].
  unfold strip. by rewrite (lstrip_spaces d Hsp).
Qed.

Lemma branch_fails tool :
  tool_fields tool = None ->
  exists e, branch tool = Raise e /\ (e = KeyError \/ e = TypeError).
Proof.
  unfold tool_fields, branch, mbind, res_mbind. intros H.
  destruct tool as [| | | | | |t];
    try (eexists; split; [reflexivity | by right]).
  simpl in *.
  destruct (dict_get "function" t) as [[| | | | | |f]|]; simpl in *;
    try (eexists; split; [reflexivity | by auto]).
  destruct (dict_get "name" f) as [n|]; simpl in *;
    [| eexists; split; [reflexivity | by left]].
  destruct (dict_get "description" f) as [d|]; simpl in *;
    [| eexists; split; [reflexivity | by left]].
  destruct (dict_get "parameters" f) as [p|]; simpl in *;
    [discriminate | eexists; split; [reflexivity | by left]].
Qed.

Lemma branches_fail tools :
  forallb is_tool_definition tools = false ->
  exists e, res_map branch tools = Raise e /\ (e = KeyError \/ e = TypeError).
Proof.
  induction tools as [|tool tools IH]; simpl; [discriminate |].
  unfold is_tool_definition at 1.
  destruct (tool_fields tool) as [[[n d] p]|] eqn:Hf; simpl.
  - intros H. destruct (branch_of_fields _ _ _ _ Hf) as (b & -> & _). simpl.
    destruct (IH H) as (e & -> & He). by exists e.
  - intros _. destruct (branch_fails tool Hf) as (e & -> & He). by exists e.
Qed.

(** X10: the response schema is built in full or not at all: a text
    that cannot be decoded passes the decoder's exception on, and a
    list with an entry that lacks the [function] record or one of its
    three fields ends in [KeyError] or [TypeError]. *)
Theorem response_schema_failures tool_definitions_schema :
  (forall e,
     json_loads tool_definitions_schema = Raise e ->
     generate_response_schema tool_definitions_schema = Raise e)
  /\ (forall tools,
        json_loads tool_definitions_schema = Ok (VList tools) ->
        forallb is_tool_definition tools = false ->
        generate_response_schema tool_definitions_schema = Raise KeyError
        \/ generate_response_schema tool_definitions_schema = Raise TypeError).
Proof.
  unfold generate_response_schema, build_action_input_schema, mbind, res_mbind.
  split.
  - intros e ->. reflexivity.
  - intros tools -> H. simpl.
    destruct (branches_fail tools H) as (e & -> & [-> | ->]); [by left | by right].
Qed.

End extraction_facts.

(** ** More on the agent loop *)

Section loop_extras.
Context `{RT : Runtime}.
Import agent props.

(** X11: with a bound of zero or less the call appends the user
    message, issues no completion request and returns the sentinel. *)
Theorem no_passes_without_budget self user_input max_retries w :
  max_retries <= 0 ->
  call self user_input (Some max_retries) w
  = (Ok (VStr "Error: Maximum retries reached."), asked self user_input w)
  /\ clock (asked self user_input w) = clock w.
Proof.
  intros Hle. split; [| reflexivity].
  unfold call, mbind, M_bind. rewrite append_run. simpl.
  replace (Z.to_nat max_retries) with 0%nat by lia. reflexivity.
Qed.

(** X12: an exception of the completion request ends the loop with
    that exception; nothing is appended to the transcript and no
    further request is made. *)
Theorem request_failure_is_fatal self n w e :
  create (clock w) "gpt-4o" (transcript self w) (response_format self) = Raise e ->
  loop self (S n) w = (Raise e, tick w)
  /\ transcript self (tick w) = transcript self w.
Proof.
  intros Hc. split; [| reflexivity].
  rewrite loop_step. unfold iteration, request, mbind, M_bind. by rewrite Hc.
Qed.

(** X13: a response that cannot be decoded, or that decodes to
    something other than a record, ends the loop with the exception
    ([AttributeError] for a non-record); the assistant message stays
    in the transcript, no corrective message is added and the
    remaining passes are not used. *)
Theorem unusable_response_is_fatal self n w raw e :
  create (clock w) "gpt-4o" (transcript self w) (response_format self) = Ok raw ->
  json_loads raw = Raise e
  \/ (e = AttributeError
      /\ exists so, json_loads raw = Ok so /\ forall d, so <> VDict d) ->
  loop self (S n) w = (Raise e, answered self raw w)
  /\ transcript self (answered self raw w)
     = transcript self w ++ [message "assistant" (VStr raw)].
Proof.
  intros Hc H. split; [| exact (transcript_appended self _ (tick w))].
  rewrite loop_step. destruct H as [Hl | (-> & so & Hl & Hso)].
  - unfold iteration, request, mbind, M_bind.
    rewrite Hc, append_run. unfold lift. by rewrite Hl.
  - rewrite (iteration_parsed _ _ _ _ Hc Hl).
    destruct so as [| | | | | |d]; try reflexivity. by destruct (Hso d).
Qed.

(** X14: the branch on the parsed response tests truth values, so an
    empty [Final Answer] together with an empty [Action Input] (an
    empty string, an empty object, zero, false) is handled like two
    nulls: the corrective message is appended and nothing is
    dispatched. *)
Theorem falsy_fields_are_null self d w :
  truthy (default VNone (dict_get "Final Answer" d)) = false ->
  truthy (default VNone (dict_get "Action Input" d)) = false ->
  handle_response self (VDict d) w
  = (Ok Next, appended (conversation self) [corrective_message] w).
Proof.
  intros Hf Ha. unfold handle_response, get, get_default, lift, mbind, M_bind.
  by rewrite Hf, Ha.
Qed.

(** X15: a truthy [Action Input] that is not an object (a string, a
    number, a list, [true]) ends the pass with [AttributeError]; the
    store is left as it was. *)
Theorem non_object_action_input self d ai w :
  truthy (default VNone (dict_get "Final Answer" d)) = false ->
  dict_get "Action Input" d = Some ai ->
  truthy ai = true ->
  (forall a, ai <> VDict a) ->
  handle_response self (VDict d) w = (Raise AttributeError, w).
Proof.
  intros Hf Ha Ht Hai. unfold handle_response, get, get_default, lift, mbind, M_bind.
  rewrite Hf, Ha. simpl. rewrite Ht.
  destruct ai as [| | | | | |a]; try reflexivity. by destruct (Hai a).
Qed.

Lemma unpack_error v e : unpack v = Raise e -> e = TypeError.
Proof.
  destruct v as [| | | | | |d]; simpl; try (by intros [= <-]).
  destruct (existsb _ _); [by intros [= <-] | discriminate].
Qed.

Lemma dict_get_none {A} (k : string) (d : dict A) :
  dict_get k d = None <-> k ∉ keys d.
Proof.
  induction d as [|[k0 v0] d IH]; simpl.
  - split; [intros _; apply not_elem_of_nil | done].
  - rewrite not_elem_of_cons.
    destruct (String.eqb_spec k k0) as [->|Hne].
    + split; [discriminate | by intros [? _]].
    + rewrite IH. split; [by split | by intros [_ ?]].
Qed.

Lemma unpack_ok v kwargs :
  unpack v = Ok kwargs ->
  v = VDict kwargs
  /\ ("self" ∉ keys kwargs) /\ ("function_name" ∉ keys kwargs).
Proof.
  destruct v as [| | | | | |d]; simpl; try discriminate.
  destruct (existsb _ (keys d)) eqn:Hex; [discriminate |].
  intros [= <-]. split; [done |].
  assert (forall k, k ∈ keys d ->
            (String.eqb k "self" || String.eqb k "function_name") = false) as Hk.
  { intros k Hin. apply not_true_iff_false. intros Htrue.
    apply not_true_iff_false in Hex. apply Hex.
    apply existsb_exists. exists k. split; [by apply list_elem_of_In | done]. }
  split; intros Hin; specialize (Hk _ Hin); simpl in Hk; discriminate.
Qed.

(** X16: when [arguments] is present but is not an object ([null]
    included), or is an object with a key [self] or [function_name],
    the dispatch ends with [TypeError] before any function is looked up
    or called; the store is left as it was. *)
Theorem bad_arguments_are_fatal self d ai arguments w :
  truthy (default VNone (dict_get "Final Answer" d)) = false ->
  dict_get "Action Input" d = Some (VDict ai) ->
  dict_get "arguments" ai = Some arguments ->
  (forall a, arguments <> VDict a)
  \/ (exists a, arguments = VDict a
                /\ ("self" ∈ keys a \/ "function_name" ∈ keys a)) ->
  handle_response self (VDict d) w = (Raise TypeError, w).
Proof.
  intros Hf Ha Harg Hbad.
  unfold handle_response, get, get_default, lift, mbind, M_bind.
  rewrite Hf, Ha. simpl.
  destruct ai as [|p ai']; [discriminate |]. rewrite Harg. simpl.
  destruct (unpack arguments) as [kwargs|e] eqn:Hu.
  - exfalso. apply unpack_ok in Hu as (-> & Hs & Hn).
    destruct Hbad as [Hbad | (a & [= <-] & [H | H])];
      [by destruct (Hbad kwargs) | done | done].
  - by rewrite (unpack_error _ _ Hu).
Qed.

Lemma bind_arguments_missing sig kwargs p :
  p ∈ sig ->
  param_kind p <> VAR_POSITIONAL -> param_kind p <> VAR_KEYWORD ->
  param_default p = None -> dict_get (param_name p) kwargs = None ->
  bind_arguments sig kwargs = Raise TypeError.
Proof.
  intros Hin Hvp Hvk Hdef Hget. unfold bind_arguments.
  destruct (match List.filter _ kwargs with [] => true | _ => _ end); [| done].
  generalize (List.filter (fun '(k, _) => negb (takes_keyword sig k)) kwargs).
  intros extra.
  induction sig as [|q sig IH]; [by apply elem_of_nil in Hin |].
  simpl. apply elem_of_cons in Hin as [<- | Hin].
  - destruct (param_kind p); try done; by rewrite ?Hget, Hdef.
  - rewrite (IH Hin).
    by destruct (param_kind q), (dict_get (param_name q) kwargs),
         (param_default q).
Qed.

(** X17: a registered function with a required parameter named [self]
    or [function_name] (one that is neither a star parameter nor has a
    default) can never be reached through the loop: whatever
    [arguments] the response carries, the dispatch ends with
    [TypeError] and the body of the function is not run. *)
Theorem reserved_parameter_names self d ai k f p w :
  truthy (default VNone (dict_get "Final Answer" d)) = false ->
  dict_get "Action Input" d = Some (VDict ai) ->
  dict_get "name" ai = Some (VStr k) ->
  dict_get k (functions self) = Some f ->
  p ∈ signature f ->
  param_kind p <> VAR_POSITIONAL ->
  param_kind p <> VAR_KEYWORD ->
  param_default p = None ->
  param_name p = "self" \/ param_name p = "function_name" ->
  handle_response self (VDict d) w = (Raise TypeError, w).
Proof.
  intros Hf Ha Hname Hk Hp Hvp Hvk Hdef Hres.
  unfold handle_response, get, get_default, lift, mbind, M_bind.
  rewrite Hf, Ha. simpl.
  destruct ai as [|q ai']; [discriminate |]. rewrite Hname. simpl.
  destruct (unpack _) as [kwargs|e] eqn:Hu;
    [| by rewrite (unpack_error _ _ Hu)].
  apply unpack_ok in Hu as (_ & Hs & Hn).
  unfold call_function. simpl. rewrite Hk.
  unfold apply, lift, mbind, M_bind.
  rewrite (bind_arguments_missing (signature f) kwargs p Hp Hvp Hvk Hdef);
    [done |].
  apply dict_get_none. by destruct Hres as [-> | ->].
Qed.

(** X18: an [Action Input] object without a [name], whose [arguments]
    are absent or an object without the keys [self] and
    [function_name], is dispatched under the name [None]: no function
    is called, the payload [Unknown function 'None'] is appended as
    the message of role [function] whose [name] is null, and the pass
    falls through. *)
Theorem missing_name_is_unknown self d ai kwargs w :
  truthy (default VNone (dict_get "Final Answer" d)) = false ->
  dict_get "Action Input" d = Some (VDict ai) ->
  ai <> [] ->
  dict_get "name" ai = None ->
  default (VDict []) (dict_get "arguments" ai) = VDict kwargs ->
  "self" ∉ keys kwargs ->
  "function_name" ∉ keys kwargs ->
  handle_response self (VDict d) w
  = (Ok Next,
     appended (conversation self)
       [VDict [("role", VStr "function");
               ("name", VNone);
               ("content",
                VStr (json_dumps None
                        (VDict [("error", VStr "Unknown function 'None'")])))]]
       w).
Proof.
  intros Hf Ha Hne Hname Hargs Hs Hn.
  assert (unpack (default (VDict []) (dict_get "arguments" ai)) = Ok kwargs) as Hu.
  { rewrite Hargs. by apply unpack_plain. }
  rewrite (handle_dispatch self d ai kwargs w Hf Ha Hne Hu).
  by rewrite Hname.
Qed.

Lemma returned_value_is_truthy self so w v w' :
  handle_response self so w = (Ok (Return v), w') -> truthy v = true.
Proof.
  unfold handle_response, get, get_default, lift, mbind, M_bind.
  destruct so as [| | | | | |d]; try discriminate.
  destruct (truthy (default VNone (dict_get "Final Answer" d))) eqn:Ht.
  { by intros [= <- _]. }
  destruct (truthy (default VNone (dict_get "Action Input" d))).
  2:{ rewrite append_run. discriminate. }
  destruct (default VNone (dict_get "Action Input" d)) as [| | | | | |ai];
    try discriminate.
  destruct (unpack _) as [kwargs|e]; [| discriminate].
  destruct (call_function _ _ _ _) as [[res|e] w1]; [| discriminate].
  rewrite append_run. discriminate.
Qed.

Lemma loop_result_is_truthy self n : forall w v w',
  loop self n w = (Ok v, w') -> truthy v = true.
Proof.
  induction n as [|n IH]; intros w v w'.
  - by intros [= <- _].
  - rewrite loop_step.
    destruct (iteration self w) as [[[v0|]|e] w1] eqn:Hit; [| by apply IH | discriminate].
    intros [= <- <-].
    unfold iteration, mbind, M_bind in Hit.
    destruct (request self w) as [[raw|e] w2]; [| discriminate].
    rewrite append_run in Hit. unfold lift in Hit.
    destruct (json_loads raw) as [so|e]; [| discriminate].
    by eapply returned_value_is_truthy.
Qed.

(** X19: a call never returns a falsy value (null, an empty string,
    zero, false, an empty list or object): what it returns is the
    sentinel or a [Final Answer] that passed the truth test. *)
Theorem call_returns_truthy self user_input max_retries w v w' :
  call self user_input max_retries w = (Ok v, w') ->
  truthy v = true.
Proof.
  unfold call, mbind, M_bind. rewrite append_run. apply loop_result_is_truthy.
Qed.

Lemma call_function_shape self function_name kwargs w r w' :
  call_function self function_name kwargs w = (r, w') ->
  w' = w
  \/ exists k f args,
       dict_get k (functions self) = Some f /\ body f args w = (r, w').
Proof.
  unfold call_function.
  destruct (key_text function_name) as [shown|]; [| intros [= _ <-]; by left].
  destruct (lookup_key _ _) as [f|] eqn:Hlk; [| intros [= _ <-]; by left].
  destruct function_name as [| | | |k| |]; try discriminate. simpl in Hlk.
  unfold apply, lift, mbind, M_bind.
  destruct (bind_arguments _ _) as [args|e]; [| intros [= _ <-]; by left].
  intros H. right. by exists k, f, args.
Qed.

(** Where a pass can leave the store: after the request alone, after
    the assistant message, after the corrective message, or after a
    call of a registered function, with or without its function
    message. *)
Lemma iteration_shape self w r w' :
  iteration self w = (r, w') ->
  w' = tick w
  \/ exists raw,
       w' = answered self raw w
       \/ w' = appended (conversation self) [corrective_message]
                 (answered self raw w)
       \/ exists function_name kwargs rf wf,
            call_function self function_name kwargs (answered self raw w)
            = (rf, wf)
            /\ (w' = wf
                \/ exists content,
                     w' = appended (conversation self)
                            [function_message function_name content] wf).
Proof.
  unfold iteration, request, mbind, M_bind.
  destruct (create _ _ _ _) as [raw|e]; [| intros [= _ <-]; by left].
  rewrite append_run. unfold lift. fold (answered self raw w).
  intros H. right. exists raw.
  destruct (json_loads raw) as [so|e]; [| injection H as _ <-; by left].
  unfold handle_response, get, get_default, lift, mbind, M_bind in H.
  destruct so as [| | | | | |d]; try (injection H as _ <-; by left).
  destruct (truthy (default VNone (dict_get "Final Answer" d)));
    [injection H as _ <-; by left |].
  destruct (truthy (default VNone (dict_get "Action Input" d)));
    [| rewrite append_run in H; injection H as _ <-; right; by left].
  destruct (default VNone (dict_get "Action Input" d)) as [| | | | | |ai];
    try (injection H as _ <-; by left).
  destruct (unpack _) as [kwargs|e]; [| injection H as _ <-; by left].
  destruct (call_function _ _ _ _) as [[res|e] wf] eqn:Hcf.
  - rewrite append_run in H. injection H as _ <-.
    right; right. eexists _, _, _, _. split; [exact Hcf |]. right. by eexists.
  - injection H as _ <-.
    right; right. eexists _, _, _, _. split; [exact Hcf |]. by left.
Qed.

Lemma iteration_extends self w r w' :
  (forall k f, dict_get k (functions self) = Some f ->
               preserves (conversation self) f) ->
  iteration self w = (r, w') ->
  exists added,
    transcript self w' = transcript self w ++ added
    /\ (length added <= 2)%nat.
Proof.
  intros Hp Hit.
  destruct (iteration_shape self w r w' Hit)
    as [-> | (raw & [-> | [-> | (fn & kw & rf & wf & Hcf & Hw)]])].
  - exists []. split; [by rewrite app_nil_r | simpl; lia].
  - eexists. split; [exact (transcript_appended self _ (tick w)) | simpl; lia].
  - unfold answered. rewrite appended_twice.
    eexists. split; [exact (transcript_appended self _ (tick w)) | simpl; lia].
  - apply call_function_preserves in Hcf; [| done]. unfold answered in Hcf.
    destruct Hw as [-> | (content & ->)].
    + exists [message "assistant" (VStr raw)]. split; [| simpl; lia].
      unfold transcript. rewrite Hcf. unfold appended. simpl.
      by rewrite lookup_insert_eq.
    + eexists. split; [| shelve]. unfold transcript.
      by rewrite (appended_after _ _ _ _ _ Hcf).
      Unshelve. simpl. lia.
Qed.

Lemma loop_extends self n :
  (forall k f, dict_get k (functions self) = Some f ->
               preserves (conversation self) f) ->
  forall w r w',
    loop self n w = (r, w') ->
    exists added,
      transcript self w' = transcript self w ++ added
      /\ (length added <= 2 * n)%nat.
Proof.
  intros Hp. induction n as [|n IH]; intros w r w'.
  - intros [= _ <-]. exists []. split; [by rewrite app_nil_r | simpl; lia].
  - rewrite loop_step.
    destruct (iteration self w) as [r1 w1] eqn:Hit.
    destruct (iteration_extends self w r1 w1 Hp Hit) as (a1 & Ha1 & Hl1).
    destruct r1 as [[v|]|e].
    + intros [= _ <-]. exists a1. split; [done | lia].
    + intros Hloop. destruct (IH _ _ _ Hloop) as (a2 & Ha2 & Hl2).
      exists (a1 ++ a2). rewrite Ha2, Ha1, length_app.
      split; [by rewrite app_assoc | lia].
    + intros [= _ <-]. exists a1. split; [done | lia].
Qed.

(** X20: however a call ends, with a result or with an exception, its
    transcript is the one it started with, followed by the user
    message and at most two further messages per pass allowed; nothing
    is removed or rewritten.  The registered functions are assumed not
    to touch the transcript themselves. *)
Theorem call_extends_transcript self user_input max_retries w r w' :
  (forall k f, dict_get k (functions self) = Some f ->
               preserves (conversation self) f) ->
  call self user_input max_retries w = (r, w') ->
  exists added,
    transcript self w'
    = transcript self w ++ message "user" user_input :: added
    /\ (length added <= 2 * Z.to_nat (default 100%Z max_retries))%nat.
Proof.
  intros Hp. unfold call, mbind, M_bind. rewrite append_run.
  intros Hloop. destruct (loop_extends self _ Hp _ _ _ Hloop) as (added & Ha & Hl).
  exists added. split; [| exact Hl].
  rewrite Ha, transcript_appended. by rewrite <- app_assoc.
Qed.

Lemma iteration_isolated self ref w r w' :
  ref <> conversation self ->
  (forall k f, dict_get k (functions self) = Some f -> preserves ref f) ->
  iteration self w = (r, w') ->
  heap w' !! ref = heap w !! ref.
Proof.
  intros Hne Hp Hit.
  assert (forall msgs w0,
            heap (appended (conversation self) msgs w0) !! ref = heap w0 !! ref)
    as Happ.
  { intros msgs w0. unfold appended. simpl. by rewrite lookup_insert_ne. }
  assert (forall raw, heap (answered self raw w) !! ref = heap w !! ref) as Hans.
  { intros raw. unfold answered, appended. simpl. by rewrite lookup_insert_ne. }
  destruct (iteration_shape self w r w' Hit)
    as [-> | (raw & [-> | [-> | (fn & kw & rf & wf & Hcf & Hw)]])].
  - reflexivity.
  - apply Hans.
  - by rewrite Happ, Hans.
  - assert (heap wf !! ref = heap w !! ref) as Hwf.
    { destruct (call_function_shape _ _ _ _ _ _ Hcf)
        as [-> | (k & f & args & Hk & Hbody)]; [apply Hans |].
      specialize (Hp k f Hk args (answered self raw w)).
      rewrite Hbody in Hp. simpl in Hp. rewrite Hp.
      by rewrite lookup_insert_ne. }
    destruct Hw as [-> | (content & ->)]; [done | by rewrite Happ].
Qed.

(** X21: a call leaves every other list of the store as it was: the
    transcript of another agent changes only if a registered function
    changes it. *)
Theorem call_leaves_other_transcripts self ref user_input max_retries w r w' :
  ref <> conversation self ->
  (forall k f, dict_get k (functions self) = Some f -> preserves ref f) ->
  call self user_input max_retries w = (r, w') ->
  heap w' !! ref = heap w !! ref.
Proof.
  intros Hne Hp. unfold call, mbind, M_bind. rewrite append_run.
  assert (heap (appended (conversation self) [message "user" user_input] w) !! ref
          = heap w !! ref) as <-.
  { unfold appended. simpl. by rewrite lookup_insert_ne. }
  generalize (appended (conversation self) [message "user" user_input] w).
  generalize (Z.to_nat (default default_max_retries max_retries)).
  intros n. induction n as [|n IH]; intros w0.
  - by intros [= _ <-].
  - rewrite loop_step.
    destruct (iteration self w0) as [r1 w1] eqn:Hit.
    pose proof (iteration_isolated self ref w0 r1 w1 Hne Hp Hit) as H1.
    destruct r1 as [[v|]|e].
    + by intros [= _ <-].
    + intros Hloop. by rewrite (IH _ Hloop).
    + by intros [= _ <-].
Qed.

Lemma iteration_ticks self w r w' :
  (forall k f, dict_get k (functions self) = Some f -> keeps_clock f) ->
  iteration self w = (r, w') ->
  clock w' = S (clock w).
Proof.
  intros Hp Hit.
  destruct (iteration_shape self w r w' Hit)
    as [-> | (raw & [-> | [-> | (fn & kw & rf & wf & Hcf & Hw)]])];
    try reflexivity.
  assert (clock wf = S (clock w)) as Hwf.
  { destruct (call_function_shape _ _ _ _ _ _ Hcf)
      as [-> | (k & f & args & Hk & Hbody)]; [reflexivity |].
    specialize (Hp k f Hk args (answered self raw w)).
    rewrite Hbody in Hp. exact Hp. }
  destruct Hw as [-> | (content & ->)]; exact Hwf.
Qed.

(** X22: a call issues at most [max_retries] completion requests (one
    per pass), whether it returns or raises, when the registered
    functions issue none themselves. *)
Theorem call_request_bound self user_input max_retries w r w' :
  (forall k f, dict_get k (functions self) = Some f -> keeps_clock f) ->
  call self user_input max_retries w = (r, w') ->
  (clock w <= clock w' <= clock w + Z.to_nat (default 100%Z max_retries))%nat.
Proof.
  intros Hp. unfold call, mbind, M_bind. rewrite append_run.
  change (clock w) with (clock (appended (conversation self)
                                  [message "user" user_input] w)).
  generalize (appended (conversation self) [message "user" user_input] w).
  change default_max_retries with 100.
  generalize (Z.to_nat (default 100 max_retries)).
  intros n. induction n as [|n IH]; intros w0.
  - intros [= _ <-]. lia.
  - rewrite loop_step.
    destruct (iteration self w0) as [r1 w1] eqn:Hit.
    pose proof (iteration_ticks self w0 r1 w1 Hp Hit) as H1.
    destruct r1 as [[v|]|e].
    + intros [= _ <-]. lia.
    + intros Hloop. specialize (IH _ Hloop). lia.
    + intros [= _ <-]. lia.
Qed.

End loop_extras.

(** ** More on recipient registration *)

Section fold_facts.
Context {A : Type} {X : Type} (key : X -> string) (val : X -> A).
Context (step : dict A -> X -> dict A).
Hypothesis step_sets : forall acc y, step acc y = dict_set (key y) (val y) acc.

Lemma elem_of_keys_dict_set (k k0 : string) (v : A) (d : dict A) :
  k ∈ keys (dict_set k0 v d) <-> k = k0 \/ k ∈ keys d.
Proof.
  induction d as [|[k1 v1] d IH]; simpl.
  - rewrite elem_of_cons. split; [intros [-> | H]; [by left | by right] |].
    intros [-> | H]; [by left | by right].
  - destruct (String.eqb_spec k0 k1) as [->|Hne]; simpl.
    + rewrite !elem_of_cons. intuition (subst; auto).
    + rewrite !elem_of_cons, IH. intuition (subst; auto).
Qed.

Lemma NoDup_keys_dict_set (k0 : string) (v : A) (d : dict A) :
  NoDup (keys d) -> NoDup (keys (dict_set k0 v d)).
Proof.
  induction d as [|[k1 v1] d IH]; simpl; intros Hnd.
  - apply NoDup_singleton.
  - apply NoDup_cons in Hnd as [Hk Hnd].
    destruct (String.eqb_spec k0 k1) as [->|Hne]; simpl.
    + by apply NoDup_cons.
    + apply NoDup_cons. split; [| by apply IH].
      rewrite elem_of_keys_dict_set. intros [-> | H]; [done | done].
Qed.

Lemma fold_set_keys (l : list X) : forall init k,
  k ∈ keys (fold_left step l init) <-> k ∈ keys init \/ k ∈ map key l.
Proof.
  induction l as [|y l IH]; intros init k; simpl.
  - split; [by left | intros [H | H]; [done | by apply elem_of_nil in H]].
  - rewrite IH, step_sets, elem_of_keys_dict_set, elem_of_cons.
    intuition (subst; auto).
Qed.

Lemma fold_set_NoDup (l : list X) : forall init,
  NoDup (keys init) -> NoDup (keys (fold_left step l init)).
Proof.
  induction l as [|y l IH]; intros init Hnd; simpl; [done |].
  apply IH. rewrite step_sets. by apply NoDup_keys_dict_set.
Qed.

Lemma fold_set_lookup_some (l : list X) : forall init k,
  k ∈ map key l ->
  exists y, y ∈ l /\ key y = k /\ dict_get k (fold_left step l init) = Some (val y).
Proof.
  induction l as [|y l IH]; intros init k Hk; simpl.
  - by apply elem_of_nil in Hk.
  - destruct (decide (k ∈ map key l)) as [Hin | Hnin].
    + destruct (IH (step init y) k Hin) as (z & Hz & Hkz & Hget).
      exists z. split; [by right | done].
    + apply elem_of_cons in Hk as [-> | Hk]; [| done].
      exists y. split; [by left |]. split; [done |].
      rewrite (fold_set_other key val step step_sets l _ _ Hnin).
      rewrite step_sets, dict_get_set. by rewrite String.eqb_refl.
Qed.

Lemma fold_set_last (l1 l2 : list X) (x : X) : forall init,
  key x ∉ map key l2 ->
  dict_get (key x) (fold_left step (l1 ++ x :: l2) init) = Some (val x).
Proof.
  intros init Hnin. rewrite fold_left_app. simpl.
  rewrite (fold_set_other key val step step_sets l2 _ _ Hnin).
  rewrite step_sets, dict_get_set. by rewrite String.eqb_refl.
Qed.

End fold_facts.

Section registration_extras.
Context `{RT : Runtime}.
Import schemas agent props.

Lemma register_step recipients enum :
  forall acc (y : Agent * string),
    (fun functions0 '(recipient, description) =>
       dict_set (function_name_of recipient)
         (generated_function (recipient_mapping recipients) enum
            (function_doc_of recipient description))
         functions0) acc y
    = dict_set (function_name_of y.1)
        (generated_function (recipient_mapping recipients) enum
           (function_doc_of y.1 y.2)) acc.
Proof. by intros acc [r d]. Qed.

Lemma registration_ok functions recipients registry :
  _register_recipients functions recipients = Ok registry ->
  exists enum,
    RecipientsEnum recipients = Ok enum
    /\ registry
       = fold_left
           (fun functions0 '(recipient, description) =>
              dict_set (function_name_of recipient)
                (generated_function (recipient_mapping recipients) enum
                   (function_doc_of recipient description))
                functions0) recipients functions.
Proof.
  unfold _register_recipients, mbind, res_mbind.
  destruct (RecipientsEnum recipients) as [enum|e]; simpl; [| discriminate].
  intros [= <-]. by exists enum.
Qed.

Lemma registered_function functions recipients registry r description :
  _register_recipients functions recipients = Ok registry ->
  (r, description) ∈ recipients ->
  exists enum function_doc,
    RecipientsEnum recipients = Ok enum
    /\ dict_get ("talk_to_" +:+ lower (name r)) registry
       = Some (generated_function (recipient_mapping recipients) enum function_doc).
Proof.
  intros Hreg Hin. apply registration_ok in Hreg as (enum & Henum & ->).
  destruct (fold_set_lookup_some
              (fun q : Agent * string => function_name_of q.1)
              (fun q : Agent * string =>
                 generated_function (recipient_mapping recipients) enum
                   (function_doc_of q.1 q.2)) _
              (register_step recipients enum) recipients functions
              (function_name_of r))
    as (y & _ & _ & Hget).
  { apply list_elem_of_fmap. by exists (r, description). }
  by eexists enum, _.
Qed.

(** X23: a registration that succeeds touches only the names it
    generates: a function registered under any other name is found as
    before, and under the name generated for a peer the registry holds
    a synthesized function, whatever was registered there before. *)
Theorem registration_and_user_functions functions recipients registry :
  _register_recipients functions recipients = Ok registry ->
  (forall k,
     (forall p d, (p, d) ∈ recipients -> k <> "talk_to_" +:+ lower (name p)) ->
     dict_get k registry = dict_get k functions)
  /\ (forall r description,
        (r, description) ∈ recipients ->
        exists enum function_doc,
          dict_get ("talk_to_" +:+ lower (name r)) registry
          = Some (generated_function (recipient_mapping recipients)
                    enum function_doc)).
Proof.
  intros Hreg. split.
  - intros k Hk. apply registration_ok in Hreg as (enum & _ & ->).
    apply (fold_set_other (fun q : Agent * string => function_name_of q.1)
             (fun q : Agent * string =>
                generated_function (recipient_mapping recipients) enum
                  (function_doc_of q.1 q.2)) _
             (register_step recipients enum)).
    intros Hin. apply list_elem_of_fmap in Hin as ([p d] & -> & Hin).
    by apply (Hk p d).
  - intros r description Hin.
    destruct (registered_function _ _ _ _ _ Hreg Hin)
      as (enum & function_doc & _ & Hget).
    by exists enum, function_doc.
Qed.

Lemma mapping_step :
  forall acc (y : Agent * string),
    (fun mapping '(recipient, _) =>
       dict_set (lower (name recipient)) recipient mapping) acc y
    = dict_set (lower (name y.1)) y.1 acc.
Proof. by intros acc [r d]. Qed.

Lemma members_step :
  forall acc (y : Agent * string),
    (fun members '(recipient, _) =>
       dict_set (lower (name recipient)) (lower (name recipient)) members) acc y
    = dict_set (lower (name y.1)) (lower (name y.1)) acc.
Proof. by intros acc [r d]. Qed.

Lemma generated_function_forwards mapping enum function_doc p m s w :
  dict_get s mapping = Some p ->
  apply (generated_function mapping enum function_doc)
    [("message", m); ("recipient_name", VStr s)] w
  = call p m None w.
Proof.
  intros Hget. unfold apply, lift, mbind, M_bind. simpl.
  unfold lift, mapping_getitem, lookup_key. by rewrite Hget.
Qed.

(** X24: when two peers of a batch have the same lower-cased name, the
    later one takes the name: every function the registration
    synthesizes, called with that name, forwards to the later peer, and
    the earlier one cannot be selected. *)
Theorem later_peer_takes_the_name functions before after p description registry :
  (forall q d, (q, d) ∈ after -> lower (name q) <> lower (name p)) ->
  _register_recipients functions (before ++ (p, description) :: after)
  = Ok registry ->
  forall r dr,
    (r, dr) ∈ before ++ (p, description) :: after ->
    exists g,
      dict_get ("talk_to_" +:+ lower (name r)) registry = Some g
      /\ forall m w,
           apply g [("message", m); ("recipient_name", VStr (lower (name p)))] w
           = call p m None w.
Proof.
  intros Hafter Hreg r dr Hin.
  assert (dict_get (lower (name p))
            (recipient_mapping (before ++ (p, description) :: after)) = Some p)
    as Hget.
  { unfold recipient_mapping.
    apply (fold_set_last (fun q : Agent * string => lower (name q.1))
             (fun q : Agent * string => q.1) _ mapping_step
             before after (p, description)).
    intros Hq. apply list_elem_of_fmap in Hq as ([q d] & Heq & Hq).
    by apply (Hafter q d). }
  destruct (registered_function _ _ _ _ _ Hreg Hin)
    as (enum & function_doc & _ & Hg).
  eexists. split; [exact Hg |].
  intros m w. by apply generated_function_forwards.
Qed.

Lemma enum_members_values recipients :
  map snd (enum_members recipients) = keys (enum_members recipients).
Proof.
  unfold enum_members.
  assert (forall (l : list (Agent * string)) (init : dict string),
            Forall (fun e => e.2 = e.1) init ->
            Forall (fun e => e.2 = e.1)
              (fold_left
                 (fun members '(recipient, _) =>
                    dict_set (lower (name recipient)) (lower (name recipient))
                      members) l init)) as Hinv.
  { induction l as [|[r d] l IH]; intros init Hinit; simpl; [done |].
    apply IH. clear IH. induction Hinit as [|[k v] init Hkv Hrest IHi]; simpl.
    - by constructor.
    - destruct (String.eqb _ k); constructor; done. }
  specialize (Hinv recipients [] (Forall_nil_2 _)).
  induction Hinv as [|[k v] l Hkv _ IH]; simpl; [done |].
  simpl in Hkv. by rewrite Hkv, IH.
Qed.

Lemma mapping_keys recipients s :
  s ∈ keys (recipient_mapping recipients)
  <-> exists p d, (p, d) ∈ recipients /\ lower (name p) = s.
Proof.
  unfold recipient_mapping.
  rewrite (fold_set_keys (fun q : Agent * string => lower (name q.1))
             (fun q : Agent * string => q.1) _ mapping_step).
  rewrite list_elem_of_fmap. split.
  - intros [H | ([p d] & -> & Hin)]; [by apply elem_of_nil in H |].
    by exists p, d.
  - intros (p & d & Hin & <-). right. by exists (p, d).
Qed.

Lemma members_keys recipients s :
  s ∈ keys (enum_members recipients)
  <-> exists p d, (p, d) ∈ recipients /\ lower (name p) = s.
Proof.
  unfold enum_members.
  rewrite (fold_set_keys (fun q : Agent * string => lower (name q.1))
             (fun q : Agent * string => lower (name q.1)) _ members_step).
  rewrite list_elem_of_fmap. split.
  - intros [H | ([p d] & -> & Hin)]; [by apply elem_of_nil in H |].
    by exists p, d.
  - intros (p & d & Hin & <-). right. by exists (p, d).
Qed.

Lemma members_NoDup recipients : NoDup (keys (enum_members recipients)).
Proof.
  unfold enum_members.
  apply (fold_set_NoDup (fun q : Agent * string => lower (name q.1))
           (fun q : Agent * string => lower (name q.1)) _ members_step).
  apply NoDup_nil_2.
Qed.

Lemma RecipientsEnum_members recipients :
  Forall (fun p : Agent * string => is_member_name (lower (name p.1)) = true)
    recipients ->
  RecipientsEnum recipients
  = Ok (AEnum (map (fun '(k, v) => (k, VStr v)) (enum_members recipients))).
Proof.
  intros Hnames. unfold RecipientsEnum, Enum.
  rewrite enum_members_values, (distinct_NoDup _ (members_NoDup recipients)).
  assert (forallb is_member_name (keys (enum_members recipients)) = true) as ->;
    [| done].
  apply forallb_forall. intros s Hs. apply list_elem_of_In in Hs.
  apply members_keys in Hs as (p & d & Hin & <-).
  exact (proj1 (Forall_forall _ _) Hnames (p, d) Hin).
Qed.

(** X25: for every batch whose lower-cased names the enumeration takes
    as member names, colliding names included, the enumeration is made
    and the values it admits are the lower-cased names of the peers,
    each once, and every one of them is a key of the routing table: a
    selector the schema admits always reaches a registered peer of that
    name. *)
Theorem admitted_selectors_are_routable recipients :
  Forall (fun p : Agent * string => is_member_name (lower (name p.1)) = true)
    recipients ->
  exists enum values,
    RecipientsEnum recipients = Ok enum
    /\ get_schema_for_type enum
       = Ok [("type", VStr "string"); ("enum", VList (map VStr values))]
    /\ NoDup values
    /\ (forall s, s ∈ values
                  <-> exists p d, (p, d) ∈ recipients /\ lower (name p) = s)
    /\ (forall s, s ∈ values ->
                  exists p d,
                    (p, d) ∈ recipients /\ lower (name p) = s
                    /\ mapping_getitem (recipient_mapping recipients) (VStr s)
                       = Ok p).
Proof.
  intros Hnames.
  eexists _, (keys (enum_members recipients)).
  split; [exact (RecipientsEnum_members recipients Hnames) |].
  split; [| split; [| split]].
  - simpl. rewrite map_map.
    rewrite <- (enum_members_values recipients), map_map.
    rewrite (map_ext
               (fun x : string * string => (let '(k, v) := x in (k, VStr v)).2)
               (fun x : string * string => VStr x.2));
      [done | by intros [k v]].
  - apply members_NoDup.
  - apply members_keys.
  - intros s Hs. apply members_keys in Hs as (p0 & d0 & Hin0 & Hname0).
    unfold recipient_mapping.
    destruct (fold_set_lookup_some
                (fun q : Agent * string => lower (name q.1))
                (fun q : Agent * string => q.1) _ mapping_step recipients [] s)
      as ([p d] & Hin & Hname & Hget).
    { apply list_elem_of_fmap. by exists (p0, d0). }
    exists p, d. split; [done |]. split; [done |].
    unfold mapping_getitem, lookup_key.
    fold (recipient_mapping recipients). unfold recipient_mapping.
    by rewrite Hget.
Qed.

(** X26: a function the registration synthesized, called with a
    selector that names no registered peer, raises [KeyError]
    ([TypeError] when the selector is a list or an object); no peer is
    called and the store is left as it was. *)
Theorem unknown_selector_raises functions recipients registry r dr m v w :
  _register_recipients functions recipients = Ok registry ->
  (r, dr) ∈ recipients ->
  (forall p d, (p, d) ∈ recipients -> v <> VStr (lower (name p))) ->
  exists g,
    dict_get ("talk_to_" +:+ lower (name r)) registry = Some g
    /\ apply g [("message", m); ("recipient_name", v)] w
       = (Raise match v with
                | VList _ | VDict _ => TypeError
                | _ => KeyError
                end, w).
Proof.
  intros Hreg Hin Hv.
  destruct (registered_function _ _ _ _ _ Hreg Hin)
    as (enum & function_doc & _ & Hg).
  eexists. split; [exact Hg |].
  unfold apply, lift, mbind, M_bind. simpl.
  unfold lift, mapping_getitem, lookup_key.
  destruct v as [| | | |s| |]; try reflexivity.
  destruct (dict_get s (recipient_mapping recipients)) as [p|] eqn:Hget;
    [| reflexivity].
  exfalso.
  assert (s ∈ keys (recipient_mapping recipients)) as Hs.
  { destruct (decide (s ∈ keys (recipient_mapping recipients))) as [|Hn];
      [done |]. apply dict_get_none in Hn. congruence. }
  apply mapping_keys in Hs as (q & d & Hq & <-). by apply (Hv q d).
Qed.

End registration_extras.

(** ** Construction and printing *)

Section construction_facts.
Context `{RT : Runtime}.
Import schemas agent props.

Lemma branches_of_definitions functions tools :
  Forall2 (fun (entry : string * pyfunc) tool =>
             tool_definition entry.1 entry.2 = Ok tool) functions tools ->
  exists branches,
    res_map branch tools = Ok branches
    /\ map branch_name branches = map (fun k => Some (VStr k)) (keys functions).
Proof.
  induction 1 as [|[name func] tool fs ts Htool _ (bs & Hbs & Hnames)]; simpl.
  - by exists [].
  - destruct (tool_definition_fields name func tool Htool) as (d & p & Hf).
    destruct (branch_of_fields _ _ _ _ Hf) as (b & Hb & Hn & _).
    exists (b :: bs). rewrite Hb, Hbs. simpl. by rewrite Hn, Hnames.
Qed.

(** X27: when the recipients can be registered, the parameter types of
    all functions can be mapped and the JSON library reads back the
    tool definitions it wrote, construction succeeds: the registry is
    the given one with the recipients registered, the transcript is
    created holding exactly the system message (the supplied prompt, or
    the generated one), and the output schema has one [Action Input]
    branch per registry entry, named after it and in registry order,
    then the null branch. *)
Theorem construction_succeeds ref name functions recipients
    system_prompt examples additional_instructions w registry tools :
  _register_recipients functions recipients = Ok registry ->
  tool_definitions registry = Ok tools ->
  json_loads (json_dumps (Some 4%nat) (VList tools)) = Ok (VList tools) ->
  exists self,
    __init__ ref name functions recipients system_prompt examples
      additional_instructions w
    = (Ok self,
       with_list ref
         [VDict [("role", VStr "system");
                 ("content", VStr (agent.system_prompt self))]] w)
    /\ agent.name self = name
    /\ agent.functions self = registry
    /\ conversation self = ref
    /\ tool_schema self = json_dumps (Some 4%nat) (VList tools)
    /\ agent.system_prompt self
       = match system_prompt with
         | Some p => p
         | None =>
             _generate_system_prompt (json_dumps (Some 4%nat) (VList tools))
               examples additional_instructions
         end
    /\ option_map (map branch_name)
         (action_input_branches (response_schema self))
       = Some (map (fun k => Some (VStr k)) (keys registry) ++ [None]).
Proof.
  intros Hreg Htools Hround.
  pose proof Htools as Hall. unfold tool_definitions in Hall.
  apply res_map_ok in Hall.
  assert (Forall2 (fun (entry : string * pyfunc) tool =>
                     tool_definition entry.1 entry.2 = Ok tool)
            registry tools) as Hall'.
  { eapply Forall2_impl; [exact Hall |]. by intros [k f] tool. }
  destruct (branches_of_definitions _ _ Hall') as (bs & Hbs & Hnames).
  unfold __init__, mbind, M_bind, lift. rewrite Hreg.
  unfold extract_function_schema, mbind, res_mbind. rewrite Htools. simpl.
  unfold generate_response_schema, build_action_input_schema, mbind, res_mbind.
  rewrite Hround. simpl. rewrite Hbs. simpl.
  eexists (mkAgent _ _ _ _ _ _ _). split; [reflexivity |]. simpl.
  repeat (split; [reflexivity |]).
  by rewrite map_app, Hnames.
Qed.

(** X28: construction fails before the transcript is created, leaving
    the store as it was, when the recipients cannot be registered (with
    the exception of the enumeration) and when the annotation of some
    parameter of a function of the registry cannot be mapped (with
    [ValueError] or [TypeError]). *)
Theorem construction_fails_early ref name functions recipients
    system_prompt examples additional_instructions w :
  (forall e,
     _register_recipients functions recipients = Raise e ->
     __init__ ref name functions recipients system_prompt examples
       additional_instructions w
     = (Raise e, w))
  /\ (forall registry,
        _register_recipients functions recipients = Ok registry ->
        Exists (fun entry : string * pyfunc =>
                  Exists (fun p =>
                            forall s,
                              get_schema_for_type
                                (default (AClass c_str) (param_annotation p))
                              <> Ok s)
                    (signature entry.2)) registry ->
        exists e,
          __init__ ref name functions recipients system_prompt examples
            additional_instructions w
          = (Raise e, w)
          /\ (e = ValueError \/ e = TypeError)).
Proof.
  unfold __init__, mbind, M_bind, lift. split.
  - by intros e ->.
  - intros registry -> Hbad.
    pose proof (extraction_outcome registry) as Hout.
    destruct (extract_function_schema registry) as [text|e]; [| by exists e].
    exfalso. apply Exists_exists in Hbad as (entry & Hentry & Hp).
    apply Exists_exists in Hp as (p & Hp & Hno).
    pose proof (proj1 (Forall_forall _ _) Hout entry Hentry) as Hall.
    destruct (proj1 (Forall_forall _ _) Hall p Hp) as [s Hs].
    by apply (Hno s).
Qed.

(** X29: printing a parsed response fails only where the handling of
    the response fails as well: on a record it prints the header, one
    line for each of the five fields and the footer, and returns; on
    anything else it raises [AttributeError] after the header, which
    is the exception the handling of that response ends with. *)
Theorem printing_fails_with_handling self so w :
  match so with
  | VDict d =>
      exists l1 l2 l3 l4 l5,
        pretty_print_response so
        = (Ok tt, [response_header; l1; l2; l3; l4; l5; response_footer])
  | _ =>
      pretty_print_response so = (Raise AttributeError, [response_header])
      /\ handle_response self so w = (Raise AttributeError, w)
  end.
Proof.
  destruct so; try (split; reflexivity).
  unfold pretty_print_response. simpl. by eexists _, _, _, _, _.
Qed.

End construction_facts.

(** ** The further properties on the scenarios *)

Section more_examples.
Import schemas agent props scenario.

Lemma union_with_unsupported_member_witness :
  get_schema_for_type
    (AUnion ([AClass c_int] ++ AOther false :: [AClass (c_other "NoneType")]))
  = Raise TypeError.
Proof.
  apply (union_with_unsupported_member [AClass c_int] (AOther false)
           [AClass (c_other "NoneType")] TypeError).
  - repeat constructor. by eexists.
  - reflexivity.
Defined.

(** [Optional[str]] is the [Union] of [str] and the class of [None],
    which the table of basic types does not hold. *)
Example optional_is_rejected :
  get_schema_for_type (AUnion [AClass c_str; AClass (c_other "NoneType")])
  = Raise ValueError.
Proof. reflexivity. Qed.

Lemma typed_dict_schema_witness :
  get_schema_for_type (ATypedDict point_fields)
  = Ok [("type", VStr "object");
        ("properties", VDict point_properties);
        ("required", VList (map VStr (keys point_fields)));
        ("additionalProperties", VBool false)].
Proof.
  apply (typed_dict_schema point_fields point_properties).
  - apply (bool_decide_unpack _). vm_compute. exact I.
  - repeat constructor; simpl; by eexists.
Defined.

Lemma dict_schema_shape_witness :
  get_schema_for_type (ADict [])
  = Ok [("type", VStr "object");
        ("properties", VDict [("property1", VDict [("type", VStr "string")]);
                              ("property2", VDict [("type", VStr "string")])]);
        ("required", VList [VStr "property1"; VStr "property2"]);
        ("additionalProperties", VBool false)].
Proof.
  apply (proj1 (dict_schema_shape [])). simpl. lia.
Defined.

Lemma parameter_schema_appends_witness :
  let param := {| param_name := "function_doc";
                  param_kind := POSITIONAL_OR_KEYWORD;
                  param_annotation := None;
                  param_default := Some (VStr "") |} in
  parameter_schema (RT := quiet) param
  = Ok ([("type", VStr "string")]
          ++ [("title", VStr "Function_doc");
              ("description", VStr "Parameter for function_doc")])
  /\ (param_annotation param = None ->
      [("type", VStr "string")] = [("type", VStr "string")]).
Proof.
  intros param.
  apply (parameter_schema_appends (RT := quiet) param [("type", VStr "string")]).
  reflexivity.
Defined.

Lemma tool_definitions_follow_registry_witness :
  Forall2
    (fun (entry : string * pyfunc) tool =>
       (exists d p, tool_fields tool = Some (VStr entry.1, d, p))
       /\ declared_parameters tool
          = Some (map param_name (signature entry.2))
       /\ required_parameters tool
          = Some (VList (map VStr (map param_name (signature entry.2)))))
    two_functions two_tools.
Proof.
  apply (tool_definitions_follow_registry (RT := quiet) two_functions two_tools).
  - constructor; [simpl; apply NoDup_singleton |].
    constructor; [simpl; apply NoDup_nil_2 | constructor].
  - reflexivity.
Defined.


Lemma blank_docstring_description_witness :
  description blank_doc = EmptyString.
Proof.
  apply (blank_docstring_description blank_doc "  
 ").
  - reflexivity.
  - discriminate.
  - repeat constructor.
Defined.

Lemma response_schema_failures_witness :
  generate_response_schema (RT := quiet) broken_tools_text = Raise KeyError
  \/ generate_response_schema (RT := quiet) broken_tools_text = Raise TypeError.
Proof.
  apply (proj2 (response_schema_failures (RT := quiet) broken_tools_text)
           broken_tools).
  - vm_compute. reflexivity.
  - reflexivity.
Defined.

Lemma no_passes_without_budget_witness :
  call (RT := quiet) agent2 (VStr "hi") (Some 0) agent2_store
  = (Ok (VStr "Error: Maximum retries reached."),
     asked agent2 (VStr "hi") agent2_store)
  /\ clock (asked agent2 (VStr "hi") agent2_store) = clock agent2_store.
Proof.
  apply (no_passes_without_budget (RT := quiet) agent2 (VStr "hi") 0
           agent2_store).
  lia.
Defined.

Lemma request_failure_is_fatal_witness :
  let w := asked agent2 (VStr "hi") agent2_store in
  loop (RT := quiet) agent2 1 w = (Raise (Exception "no completion"), tick w)
  /\ transcript agent2 (tick w) = transcript agent2 w.
Proof.
  intros w.
  apply (request_failure_is_fatal (RT := quiet) agent2 0 w
           (Exception "no completion")).
  reflexivity.
Defined.

Lemma unusable_response_is_fatal_witness :
  let w := asked agent2 (VStr "hi") agent2_store in
  loop (RT := demo.scripted ["I cannot answer in JSON."]) agent2 100 w
  = (Raise JSONDecodeError, answered agent2 "I cannot answer in JSON." w)
  /\ transcript agent2 (answered agent2 "I cannot answer in JSON." w)
     = transcript agent2 w
         ++ [message "assistant" (VStr "I cannot answer in JSON.")].
Proof.
  intros w.
  apply (unusable_response_is_fatal
           (RT := demo.scripted ["I cannot answer in JSON."]) agent2 99 w
           "I cannot answer in JSON." JSONDecodeError).
  - reflexivity.
  - left. vm_compute. reflexivity.
Defined.

Lemma falsy_fields_are_null_witness :
  handle_response (RT := quiet) agent2
    (VDict (fields "NONE" (VDict []) (VStr ""))) agent2_store
  = (Ok Next, appended (conversation agent2) [corrective_message] agent2_store).
Proof.
  apply (falsy_fields_are_null (RT := quiet) agent2
           (fields "NONE" (VDict []) (VStr "")) agent2_store); reflexivity.
Defined.

Lemma non_object_action_input_witness :
  handle_response (RT := quiet) agent2
    (VDict (fields "CALL_FUNCTION" (VStr "say_hello") VNone)) agent2_store
  = (Raise AttributeError, agent2_store).
Proof.
  apply (non_object_action_input (RT := quiet) agent2
           (fields "CALL_FUNCTION" (VStr "say_hello") VNone)
           (VStr "say_hello") agent2_store);
    [reflexivity | reflexivity | reflexivity | discriminate].
Defined.

Lemma bad_arguments_are_fatal_witness :
  handle_response (RT := quiet) agent2
    (VDict (fields "CALL_FUNCTION"
              (VDict [("name", VStr "say_hello"); ("arguments", VNone)]) VNone))
    agent2_store
  = (Raise TypeError, agent2_store).
Proof.
  apply (bad_arguments_are_fatal (RT := quiet) agent2
           (fields "CALL_FUNCTION"
              (VDict [("name", VStr "say_hello"); ("arguments", VNone)]) VNone)
           [("name", VStr "say_hello"); ("arguments", VNone)] VNone
           agent2_store);
    [reflexivity | reflexivity | reflexivity | left; discriminate].
Defined.

Lemma librarian_functions : functions librarian = [("describe", describe)].
Proof. reflexivity. Qed.

Lemma reserved_parameter_names_witness :
  handle_response (RT := quiet) librarian
    (VDict (fields "CALL_FUNCTION"
              (action "describe" [("function_name", VStr "describe")]) VNone))
    agent2_store
  = (Raise TypeError, agent2_store).
Proof.
  apply (reserved_parameter_names (RT := quiet) librarian
           (fields "CALL_FUNCTION"
              (action "describe" [("function_name", VStr "describe")]) VNone)
           [("name", VStr "describe");
            ("arguments", VDict [("function_name", VStr "describe")])]
           "describe" describe
           {| param_name := "function_name";
              param_kind := POSITIONAL_OR_KEYWORD;
              param_annotation := Some (AClass c_str);
              param_default := None |} agent2_store).
  - reflexivity.
  - reflexivity.
  - reflexivity.
  - by rewrite librarian_functions.
  - apply list_elem_of_here.
  - discriminate.
  - discriminate.
  - reflexivity.
  - by right.
Defined.

Lemma missing_name_is_unknown_witness :
  handle_response (RT := quiet) agent2
    (VDict (fields "CALL_FUNCTION" (VDict [("arguments", VDict [])]) VNone))
    agent2_store
  = (Ok Next,
     appended (conversation agent2)
       [VDict [("role", VStr "function");
               ("name", VNone);
               ("content",
                VStr (demo.dumps None
                        (VDict [("error", VStr "Unknown function 'None'")])))]]
       agent2_store).
Proof.
  apply (missing_name_is_unknown (RT := quiet) agent2
           (fields "CALL_FUNCTION" (VDict [("arguments", VDict [])]) VNone)
           [("arguments", VDict [])] [] agent2_store);
    [reflexivity | reflexivity | discriminate | reflexivity | reflexivity
    | apply not_elem_of_nil | apply not_elem_of_nil].
Defined.

Lemma hello_run_result : hello_run = (Ok (VStr "42"), hello_run.2).
Proof. apply injective_projections; [vm_compute; reflexivity | reflexivity]. Qed.

Lemma call_returns_truthy_witness : truthy (VStr "42") = true.
Proof.
  exact (call_returns_truthy (RT := demo.scripted hello_script) agent2
           (VStr "hi") None agent2_store (VStr "42") hello_run.2
           hello_run_result).
Defined.

Lemma agent2_preserves ref :
  forall k f, dict_get k (functions agent2) = Some f -> preserves ref f.
Proof.
  intros k f. rewrite agent2_functions. simpl.
  destruct (String.eqb k "say_hello"); [| discriminate].
  intros [= <-]. apply say_hello_preserves.
Qed.

Lemma call_extends_transcript_witness :
  exists added,
    transcript agent2 hello_run.2
    = transcript agent2 agent2_store ++ message "user" (VStr "hi") :: added
    /\ (length added <= 2 * Z.to_nat (default 100%Z None))%nat.
Proof.
  exact (call_extends_transcript (RT := demo.scripted hello_script) agent2
           (VStr "hi") None agent2_store (Ok (VStr "42")) hello_run.2
           (agent2_preserves (conversation agent2)) hello_run_result).
Defined.

Lemma shared_run_result : shared_run = (Ok (VStr "42"), shared_run.2).
Proof. apply injective_projections; [vm_compute; reflexivity | reflexivity]. Qed.

Lemma call_leaves_other_transcripts_witness :
  heap shared_run.2 !! 3%nat = heap shared_store !! 3%nat
  /\ conversation worker = 3%nat
  /\ length (transcript worker shared_store) = 1%nat
  /\ length (transcript agent2 shared_run.2) = 5%nat.
Proof.
  split; [| vm_compute; repeat split; reflexivity].
  apply (call_leaves_other_transcripts (RT := demo.scripted hello_script)
           agent2 3%nat (VStr "hi") None shared_store (Ok (VStr "42"))
           shared_run.2).
  - vm_compute. discriminate.
  - apply agent2_preserves.
  - exact shared_run_result.
Defined.

Lemma call_request_bound_witness :
  (clock agent2_store <= clock hello_run.2
   <= clock agent2_store + Z.to_nat (default 100%Z None))%nat.
Proof.
  apply (call_request_bound (RT := demo.scripted hello_script) agent2
           (VStr "hi") None agent2_store (Ok (VStr "42")) hello_run.2).
  - intros k f. rewrite agent2_functions. simpl.
    destruct (String.eqb k "say_hello"); [| discriminate].
    intros [= <-] args w. reflexivity.
  - exact hello_run_result.
Defined.

Example hello_run_requests : clock hello_run.2 = 2%nat.
Proof. vm_compute. reflexivity. Qed.

Lemma main_registry_ok :
  _register_recipients (RT := quiet) [("say_hello", say_hello)] main_recipients
  = Ok main_registry.
Proof. reflexivity. Qed.

Lemma bobs_registry_ok :
  _register_recipients (RT := quiet) [] bobs = Ok bobs_registry.
Proof. reflexivity. Qed.

Lemma registration_and_user_functions_witness :
  dict_get "say_hello" main_registry
  = dict_get "say_hello" [("say_hello", say_hello)]
  /\ exists enum function_doc,
       dict_get "talk_to_agent2" main_registry
       = Some (generated_function (RT := quiet)
                 (recipient_mapping (RT := quiet) main_recipients)
                 enum function_doc).
Proof.
  split.
  - apply (proj1 (registration_and_user_functions (RT := quiet)
                    [("say_hello", say_hello)] main_recipients main_registry
                    main_registry_ok) "say_hello").
    intros p d Hin. discriminate.
  - apply (proj2 (registration_and_user_functions (RT := quiet)
                    [("say_hello", say_hello)] main_recipients main_registry
                    main_registry_ok) agent2 "provides greeting functionality").
    apply list_elem_of_here.
Defined.

Example bobs_collide :
  lower (RT := quiet) (name upper_bob) = "bob"
  /\ lower (RT := quiet) (name lower_bob) = "bob"
  /\ keys bobs_registry = ["talk_to_bob"].
Proof. repeat split; reflexivity. Qed.

(** The function registered for the first Bob reaches the second. *)
Lemma later_peer_takes_the_name_witness :
  exists g,
    dict_get "talk_to_bob" bobs_registry = Some g
    /\ forall m w,
         apply g [("message", m); ("recipient_name", VStr "bob")] w
         = call (RT := quiet) lower_bob m None w.
Proof.
  apply (later_peer_takes_the_name (RT := quiet) []
           [(upper_bob, "the first Bob")] [] lower_bob "the second bob"
           bobs_registry) with (r := upper_bob) (dr := "the first Bob").
  - intros q d Hin. by apply elem_of_nil in Hin.
  - exact bobs_registry_ok.
  - apply list_elem_of_here.
Defined.

Lemma admitted_selectors_are_routable_witness :
  exists enum values,
    RecipientsEnum (RT := quiet) bobs = Ok enum
    /\ get_schema_for_type enum
       = Ok [("type", VStr "string"); ("enum", VList (map VStr values))]
    /\ NoDup values
    /\ (forall s, s ∈ values
                  <-> exists p d,
                        (p, d) ∈ bobs /\ lower (RT := quiet) (name p) = s)
    /\ (forall s, s ∈ values ->
                  exists p d,
                    (p, d) ∈ bobs /\ lower (RT := quiet) (name p) = s
                    /\ mapping_getitem (recipient_mapping (RT := quiet) bobs)
                         (VStr s)
                       = Ok p).
Proof.
  apply (admitted_selectors_are_routable (RT := quiet) bobs).
  repeat constructor.
Defined.

Example bobs_enumeration :
  RecipientsEnum (RT := quiet) bobs = Ok (AEnum [("bob", VStr "bob")]).
Proof. reflexivity. Qed.

Lemma unknown_selector_raises_witness :
  exists g,
    dict_get "talk_to_agent2" main_registry = Some g
    /\ apply g [("message", VStr "hello"); ("recipient_name", VStr "agent3")]
         agent2_store
       = (Raise KeyError, agent2_store).
Proof.
  apply (unknown_selector_raises (RT := quiet) [("say_hello", say_hello)]
           main_recipients main_registry agent2
           "provides greeting functionality" (VStr "hello") (VStr "agent3")
           agent2_store).
  - exact main_registry_ok.
  - apply list_elem_of_here.
  - intros p d Hin. apply list_elem_of_singleton in Hin. injection Hin as -> _.
    discriminate.
Defined.

Lemma construction_succeeds_witness :
  exists self,
    new_agent2 [] empty
    = (Ok self,
       with_list 2
         [VDict [("role", VStr "system");
                 ("content", VStr (agent.system_prompt self))]] empty)
    /\ option_map (map branch_name)
         (action_input_branches (response_schema self))
       = Some [Some (VStr "say_hello"); None].
Proof.
  destruct (construction_succeeds (RT := quiet) 2 "Agent2"
              [("say_hello", say_hello)] [] None None None empty
              [("say_hello", say_hello)] agent2_tools)
    as (self & Hinit & _ & _ & _ & _ & _ & Hbranches).
  - reflexivity.
  - reflexivity.
  - vm_compute. reflexivity.
  - exists self. split; [exact Hinit | exact Hbranches].
Defined.

Lemma construction_fails_early_witness :
  exists e,
    __init__ (RT := quiet) 7 "Broken" [("optional_tool", optional_tool)] []
      None None None empty
    = (Raise e, empty)
    /\ (e = ValueError \/ e = TypeError).
Proof.
  apply (proj2 (construction_fails_early (RT := quiet) 7 "Broken"
                  [("optional_tool", optional_tool)] [] None None None empty)
           [("optional_tool", optional_tool)]).
  - reflexivity.
  - apply Exists_cons_hd, Exists_cons_hd. discriminate.
Defined.

Example optional_parameter_breaks_construction :
  (__init__ (RT := quiet) 7 "Broken" [("optional_tool", optional_tool)] []
     None None None empty).1
  = Raise ValueError.
Proof. reflexivity. Qed.

End more_examples.
